(** * jcvi.assembly.benchmark: estsummary and rnaseqbench

    A shallow embedding of [assembly/benchmark.py].  The two subcommands are
    written in a state-and-exception monad over a [world] made of the file
    system and the trace of observable events (lines printed, files opened,
    calls to the redundancy filter).

    Python integers are [Z].  The percentages are Python floats obtained as
    [n * 100. / d] from integers and compared with integer thresholds; they
    are carried as exact rationals [Q], and a division by zero raises
    [ZeroDivisionError] as [float.__div__] does.  The rounding of the floats
    is not modelled: a statement that reads a band off the exact
    ratio carries a bound on the integers under which the float and the
    rational are on the same side of the threshold. *)

From Stdlib Require Import ZArith QArith Lia.
From stdpp Require Import gmap strings list fin_maps fin_sets.

Set Warnings "-clear-no-such-hyp".

Local Open Scope Z_scope.

(** ** Python values and exceptions *)

Inductive exn :=
| ZeroDivisionError
| KeyError (key : string)
| IOError (path : string)
| ValueError
| SystemExit (status : Z).

Inductive result (A : Type) :=
| Ok (a : A)
| Raise (e : exn).
Arguments Ok {A} a.
Arguments Raise {A} e.

(** What a script may hand to [sys.exit]. *)
Inductive exit_arg :=
| ExitNone
| ExitInt (n : Z)
| ExitObj (repr : string).

(** [sys.exit(None)] is a successful exit, an integer is the status itself,
    any other object is printed and the status is 1. *)
Definition exit_status (a : exit_arg) : Z :=
  match a with
  | ExitNone => 0
  | ExitInt n => n
  | ExitObj _ => 1
  end.

(** ** Floats as rationals *)

Definition float_of_int (n : Z) : Q := inject_Z n.

(** [a > b] and [a >= b] on numbers. *)
Definition Qgtb (a b : Q) : bool := negb (Qle_bool a b).
Definition Qgeb (a b : Q) : bool := Qle_bool b a.

(** ** Hit records

    One line of a tabular BLAST file, with the fields [benchmark.py] reads
    from [jcvi.formats.blast.BlastLine]. *)

Record BlastLine := {
  query : string;
  subject : string;
  qstart : Z;
  qstop : Z;
  sstart : Z;
  sstop : Z;
  hitlen : Z;
  nmismatch : Z;
  ngaps : Z
}.

(** ** The world: files and observable events *)

Inductive file :=
| SizesFile (mapping : gmap string Z)
| BlastFile (lines : list BlastLine).

(** Lines of the reports, before formatting. *)
Inductive line :=
| LPerGene (q : string) (identity coverage : Q)
| LCutoff (ident cov : Z)
| LIdentity (mismatches gaps alignlen : Z)
| LTotalMapped (n : Z) (pct : Q) (total : Z)
| LTotalValid (n : Z) (pct : Q) (total : Z)
| LOverallIdent (pct : Q)
| LCoverage (covered total : Z)
| LCoveragePct (pct : Q)
| LReferenceSet (reffasta : string) (known_genes : Z)
| LCtg80 (n : Z)
| LCtg50 (n : Z)
| LRef80 (n : Z) (pct : Q)
| LRef50 (n : Z) (pct : Q)
| LChimers (n : Z).

Inductive event :=
| EvHelp (usage : string)
| EvStdout (l : line)
| EvStderr (l : line)
| EvOpen (path : string)
| EvExists (path : string) (found : bool)
| EvSupermap (blastfile : string) (filter : string).

Record world := {
  fs : gmap string file;
  trace : list event
}.

(** ** The monad: state [world], exceptions [exn] *)

Definition M (A : Type) : Type := world -> world * result A.

Definition ret {A} (a : A) : M A := fun w => (w, Ok a).

Definition bind {A B} (m : M A) (k : A -> M B) : M B :=
  fun w => match m w with
           | (w', Ok a) => k a w'
           | (w', Raise e) => (w', Raise e)
           end.

Definition raise {A} (e : exn) : M A := fun w => (w, Raise e).

Definition emit (e : event) : M unit :=
  fun w => ({| fs := fs w; trace := trace w ++ [e] |}, Ok tt).

Definition get_fs : M (gmap string file) := fun w => (w, Ok (fs w)).

Definition put_file (path : string) (f : file) : M unit :=
  fun w => ({| fs := <[path := f]> (fs w); trace := trace w |}, Ok tt).

Declare Scope py_scope.
Delimit Scope py_scope with py.
Notation "'do' x <- c ; k" := (bind c (fun x => k))
  (at level 10, x pattern, c at level 100, k at level 200) : py_scope.
Notation "'exec' c ; k" := (bind c (fun _ => k))
  (at level 10, c at level 100, k at level 200) : py_scope.
Local Open Scope py_scope.

(** [for x in xs: st = body st x], stopping at the first exception. *)
Fixpoint for_each {A S} (body : S -> A -> M S) (xs : list A) (st : S) : M S :=
  match xs with
  | [] => ret st
  | x :: xs' => do st' <- body st x; for_each body xs' st'
  end.

Definition when (b : bool) (m : M unit) : M unit := if b then m else ret tt.

(** [a / b] on floats. *)
Definition fdiv (a b : Q) : M Q :=
  if Qeq_bool b 0 then raise ZeroDivisionError else ret (a / b)%Q.

(** [d[k]] on a dict. *)
Definition getitem (d : gmap string Z) (k : string) : M Z :=
  match d !! k with
  | Some v => ret v
  | None => raise (KeyError k)
  end.

Definition len_map {V} (d : gmap string V) : Z := Z.of_nat (size d).
Definition len_set (s : gset string) : Z := Z.of_nat (size s).

Definition print_stdout (l : line) : M unit := emit (EvStdout l).
Definition print_stderr (l : line) : M unit := emit (EvStderr l).

(** [optparse.OptionParser.print_help]: writes the usage text to standard
    output and returns [None]. *)
Definition print_help (usage : string) : M exit_arg :=
  exec emit (EvHelp usage); ret ExitNone.

Definition sys_exit {A} (a : exit_arg) : M A := raise (SystemExit (exit_status a)).

(** ** Collaborators outside [benchmark.py] *)

(** Modelled from the spec: [jcvi.formats.sizes.Sizes] is absent; the size
    table "maps a sequence identifier to its total length", one entry per
    known sequence of the file it is built from. *)
Definition Sizes (path : string) : M (gmap string Z) :=
  exec emit (EvOpen path);
  do files <- get_fs;
  match files !! path with
  | Some (SizesFile mapping) => ret mapping
  | _ => raise (IOError path)
  end.

(** Modelled from the spec: [jcvi.formats.blast.Blast] and [BlastSlow] are
    absent; opening an alignment file gives its hit records in file order. *)
Definition Blast (path : string) : M (list BlastLine) :=
  exec emit (EvOpen path);
  do files <- get_fs;
  match files !! path with
  | Some (BlastFile lines) => ret lines
  | _ => raise (IOError path)
  end.

Definition BlastSlow (path : string) : M (list BlastLine) := Blast path.

(** [Blast.iter_line]: every record of the file, one by one. *)
Definition iter_line (lines : list BlastLine) : list BlastLine := lines.

(** [os.path.exists]. *)
Definition op_exists (path : string) : M bool :=
  do files <- get_fs;
  let found := bool_decide (is_Some (files !! path)) in
  exec emit (EvExists path found);
  ret found.

Definition supermap_path (blastfile filter : string) : string :=
  blastfile +:+ "." +:+ filter +:+ ".supermap".

Record options := {
  ident : Z;
  cov : Z;
  list_ : bool
}.

(** The [add_option] defaults of [estsummary]. *)
Definition estsummary_defaults : options :=
  {| ident := 95; cov := 90; list_ := false |}.

Definition estsummary_doc : string := "%prog estsummary estblastfile estfastafile".
Definition rnaseqbench_doc : string := "%prog rnaseqbench blastfile ref.fasta".

(** ** estsummary: the aggregation of one query *)

Record sums := {
  this_covered : Z;
  this_alignlen : Z;
  this_mismatches : Z;
  this_gaps : Z
}.

Definition sums0 : sums :=
  {| this_covered := 0; this_alignlen := 0; this_mismatches := 0; this_gaps := 0 |}.

(** Body of [for b in blines]. *)
Definition add_bline (s : sums) (b : BlastLine) : sums :=
  {| this_covered := this_covered s + Z.abs (qstart b - qstop b + 1);
     this_alignlen := this_alignlen s + hitlen b;
     this_mismatches := this_mismatches s + nmismatch b;
     this_gaps := this_gaps s + ngaps b |}.

Definition sum_blines (blines : list BlastLine) : sums :=
  fold_left add_bline blines sums0.

(** [this_identity = (100 - (this_mismatches + this_gaps) * 100. / this_alignlen)] *)
Definition compute_identity (s : sums) : M Q :=
  do q <- fdiv (float_of_int (this_mismatches s + this_gaps s) * 100)
               (float_of_int (this_alignlen s));
  ret (100 - q)%Q.

(** [this_coverage = this_covered * 100. / sizes[query]] *)
Definition compute_coverage (sizes : gmap string Z) (q : string) (s : sums) : M Q :=
  do size <- getitem sizes q;
  fdiv (float_of_int (this_covered s) * 100) (float_of_int size).

(** [this_identity > ident and this_coverage > cov] *)
Definition is_valid (opts : options) (this_identity this_coverage : Q) : bool :=
  Qgtb this_identity (float_of_int (ident opts))
  && Qgtb this_coverage (float_of_int (cov opts)).

Record est_state := {
  covered : Z;
  mismatches : Z;
  gaps : Z;
  alignlen : Z;
  queries : gset string;
  valid_count : Z;
  mapped_count : Z
}.

Definition est_state0 : est_state :=
  {| covered := 0; mismatches := 0; gaps := 0; alignlen := 0;
     queries := ∅; valid_count := 0; mapped_count := 0 |}.

(** Body of [for query, blines in blast.iter_hits()]. *)
Definition estsummary_hit (opts : options) (sizes : gmap string Z)
    (st : est_state) (hit : string * list BlastLine) : M est_state :=
  let '(q, blines) := hit in
  let queries' := {[q]} ∪ queries st in
  let mapped_count' := mapped_count st + 1 in
  let this := sum_blines blines in
  do this_identity <- compute_identity this;
  do this_coverage <- compute_coverage sizes q this;
  exec when (list_ opts) (print_stdout (LPerGene q this_identity this_coverage));
  let valid_count' :=
    if is_valid opts this_identity this_coverage
    then valid_count st + 1 else valid_count st in
  ret {| covered := covered st + this_covered this;
         mismatches := mismatches st + this_mismatches this;
         gaps := gaps st + this_gaps this;
         alignlen := alignlen st + this_alignlen this;
         queries := queries';
         valid_count := valid_count';
         mapped_count := mapped_count' |}.

(** [sum(sizes[x] for x in queries)] *)
Definition sum_sizes (sizes : gmap string Z) (qs : list string) : M Z :=
  for_each (fun acc x => do v <- getitem sizes x; ret (acc + v)) qs 0.

(** The summary printed after the loop. *)
Definition estsummary_report (opts : options) (sizes : gmap string Z)
    (total : Z) (st : est_state) : M unit :=
  exec print_stderr (LCutoff (ident opts) (cov opts));
  exec print_stderr (LIdentity (mismatches st) (gaps st) (alignlen st));
  do pmapped <- fdiv (float_of_int (mapped_count st) * 100) (float_of_int total);
  exec print_stderr (LTotalMapped (mapped_count st) pmapped total);
  do pvalid <- fdiv (float_of_int (valid_count st) * 100) (float_of_int total);
  exec print_stderr (LTotalValid (valid_count st) pvalid total);
  do q <- fdiv (float_of_int (mismatches st + gaps st) * 100)
               (float_of_int (alignlen st));
  exec print_stderr (LOverallIdent (100 - q)%Q);
  do queries_combined <- sum_sizes sizes (elements (queries st));
  exec print_stderr (LCoverage (covered st) queries_combined);
  do pcov <- fdiv (float_of_int (covered st) * 100) (float_of_int queries_combined);
  print_stderr (LCoveragePct pcov).

(** ** rnaseqbench: the two aggregation passes *)

(** [bps[x.subject] += abs(x.sstop - x.sstart) + 1] on a [defaultdict(int)]. *)
Definition add_bps (bps : gmap string Z) (x : BlastLine) : gmap string Z :=
  <[subject x := default 0 (bps !! subject x) + (Z.abs (sstop x - sstart x) + 1)]> bps.

Definition sum_bps (hits : list BlastLine) : gmap string Z :=
  fold_left add_bps hits ∅.

Record bands := {
  good80 : gset string;
  good50 : gset string
}.

(** Body of the loops over [bps.items()]: [name] is the contig in the query
    pass and the subject [vh] itself in the reference pass. *)
Definition classify (sizes : gmap string Z) (name : string)
    (st : bands) (vh : string) (length : Z) : M bands :=
  do rsize <- getitem sizes vh;
  do ratio <- fdiv (float_of_int length * 100) (float_of_int rsize);
  let g80 := if Qgeb ratio 80 then {[name]} ∪ good80 st else good80 st in
  let g50 := if Qgeb ratio 50 then {[name]} ∪ good50 st else good50 st in
  ret {| good80 := g80; good50 := g50 |}.

Record ctg_state := {
  chimers : Z;
  goodctg : bands
}.

Definition ctg_state0 : ctg_state :=
  {| chimers := 0; goodctg := {| good80 := ∅; good50 := ∅ |} |}.

(** Body of [for ctg, hits in blast.iter_hits()].  [bps.items()] is taken in
    the order of [map_to_list]; the order of the dict decides nothing but
    which lookup or division fails first when several would. *)
Definition rnaseqbench_hit (sizes : gmap string Z)
    (st : ctg_state) (hit : string * list BlastLine) : M ctg_state :=
  let '(ctg, hits) := hit in
  let bps := sum_bps hits in
  let valid_hits := map_to_list bps in
  do good <- for_each (fun b '(vh, length) => classify sizes ctg b vh length)
                      valid_hits (goodctg st);
  let chimers' :=
    if (1 <? Z.of_nat (length valid_hits)) then chimers st + 1 else chimers st in
  ret {| chimers := chimers'; goodctg := good |}.

(** The reference pass: [bps] over every line, then the bands per subject. *)
Definition rnaseqbench_ref (sizes : gmap string Z) (lines : list BlastLine) : M bands :=
  let bps := sum_bps (iter_line lines) in
  for_each (fun b '(vh, length) => classify sizes vh b vh length)
           (map_to_list bps) {| good80 := ∅; good50 := ∅ |}.

Definition rnaseqbench_report (reffasta : string) (known_genes : Z)
    (cs : ctg_state) (goodref : bands) : M unit :=
  exec print_stderr (LReferenceSet reffasta known_genes);
  exec print_stderr (LCtg80 (len_set (good80 (goodctg cs))));
  exec print_stderr (LCtg50 (len_set (good50 (goodctg cs))));
  do p80 <- fdiv (float_of_int (len_set (good80 goodref)) * 100)
                 (float_of_int known_genes);
  exec print_stderr (LRef80 (len_set (good80 goodref)) p80);
  do p50 <- fdiv (float_of_int (len_set (good50 goodref)) * 100)
                 (float_of_int known_genes);
  exec print_stderr (LRef50 (len_set (good50 goodref)) p50);
  print_stderr (LChimers (chimers cs)).

(** ** The two subcommands *)

Section Commands.

(** [OptionParser.parse_args]: the options over their defaults, and the
    positional arguments left. *)
Variable parse_args : forall O : Type, O -> list string -> O * list string.

(** [iter_hits] of [BlastSlow] and of [Blast]: the records of a file as
    groups, each with its query id. *)
Variable BlastSlow_iter_hits : list BlastLine -> list (string * list BlastLine).
Variable Blast_iter_hits : list BlastLine -> list (string * list BlastLine).

(** The redundancy filter as a function of the records and the direction. *)
Variable nonredundant : string -> list BlastLine -> list BlastLine.

(** Modelled from the spec: [jcvi.algorithms.supermap.supermap] is absent;
    it reads the alignment file, keeps a non-redundant subset of the records
    for the direction asked, and produces the artifact at the derived
    path. *)
Definition supermap (blastfile filter : string) : M unit :=
  exec emit (EvSupermap blastfile filter);
  do lines <- Blast blastfile;
  put_file (supermap_path blastfile filter) (BlastFile (nonredundant filter lines)).

Definition estsummary (args : list string) : M unit :=
  let '(opts, args) := parse_args options estsummary_defaults args in
  if negb (length args =? 2)%nat then
    do r <- print_help estsummary_doc; sys_exit r
  else
    match args with
    | [blastfile; fastafile] =>
        do sizes <- Sizes fastafile;
        let total := len_map sizes in
        do blast <- BlastSlow blastfile;
        do st <- for_each (estsummary_hit opts sizes)
                          (BlastSlow_iter_hits blast) est_state0;
        estsummary_report opts sizes total st
    | _ => raise ValueError
    end.

Definition rnaseqbench (args : list string) : M unit :=
  let '(_, args) := parse_args unit tt args in
  if negb (length args =? 2)%nat then
    do r <- print_help rnaseqbench_doc; sys_exit r
  else
    match args with
    | [blastfile; reffasta] =>
        do sizes <- Sizes reffasta;
        let known_genes := len_map sizes in
        let querysupermap := blastfile +:+ ".query.supermap" in
        let refsupermap := blastfile +:+ ".ref.supermap" in
        do qfound <- op_exists querysupermap;
        exec when (negb qfound) (supermap blastfile "query");
        do rfound <- op_exists refsupermap;
        exec when (negb rfound) (supermap blastfile "ref");
        do blast <- Blast querysupermap;
        do cs <- for_each (rnaseqbench_hit sizes) (Blast_iter_hits blast) ctg_state0;
        do blast <- Blast refsupermap;
        do goodref <- rnaseqbench_ref sizes blast;
        rnaseqbench_report reffasta known_genes cs goodref
    | _ => raise ValueError
    end.

End Commands.

(** ** What the spec says, for comparison *)

(** Covered bases of a group in the spec's words: the sum over the records of
    [|qstart - qstop| + 1]. *)
Definition spec_covered_bases (blines : list BlastLine) : Z :=
  fold_left (fun acc b => acc + (Z.abs (qstart b - qstop b) + 1)) blines 0.

(** The distinct subject ids among the records of a group. *)
Definition subjects (hits : list BlastLine) : gset string :=
  list_to_set (subject <$> hits).

(** Events of a trace by kind. *)
Definition filters_invoked (tr : list event) : list (string * string) :=
  omap (fun e => match e with EvSupermap b f => Some (b, f) | _ => None end) tr.

Definition paths_checked (tr : list event) : list string :=
  omap (fun e => match e with EvExists p _ => Some p | _ => None end) tr.

Definition files_opened (tr : list event) : list string :=
  omap (fun e => match e with EvOpen p => Some p | _ => None end) tr.

Definition lines_printed (tr : list event) : list line :=
  omap (fun e => match e with EvStdout l | EvStderr l => Some l | _ => None end) tr.

(** The 80% band inside the 50% band. *)
Definition nested (b : bands) : Prop := good80 b ⊆ good50 b.

Definition is_print (e : event) : bool :=
  match e with
  | EvStdout _ | EvStderr _ => true
  | _ => false
  end.

(** A computation that only prints: it leaves the files alone, opens none,
    checks no path and calls no filter. *)
Definition prints_only {A} (m : M A) : Prop :=
  forall w, exists evs,
    (m w).1 = {| fs := fs w; trace := trace w ++ evs |} /\
    Forall (fun e => is_print e = true) evs.

Definition completes {A} (r : result A) : Prop :=
  match r with
  | Ok _ => True
  | Raise _ => False
  end.

(** The part of [rnaseqbench] that follows the two existence checks: the
    query pass, the reference pass and the report. *)
Definition rnaseqbench_passes
    (Blast_iter_hits : list BlastLine -> list (string * list BlastLine))
    (sizes : gmap string Z) (reffasta querysupermap refsupermap : string) : M unit :=
  do blast <- Blast querysupermap;
  do cs <- for_each (rnaseqbench_hit sizes) (Blast_iter_hits blast) ctg_state0;
  do blast <- Blast refsupermap;
  do goodref <- rnaseqbench_ref sizes blast;
  rnaseqbench_report reffasta (len_map sizes) cs goodref.

(** ** Sums used to state what the loops accumulate *)

Definition sumZ (l : list Z) : Z := foldr Z.add 0 l.

(** All the records of a list of groups, in order. *)
Definition all_blines (groups : list (string * list BlastLine)) : list BlastLine :=
  concat (snd <$> groups).

(** Width of a record on the subject, as [rnaseqbench] counts it. *)
Definition subject_width (x : BlastLine) : Z := Z.abs (sstop x - sstart x) + 1.

(** Bases of the records of [hits] whose subject is [s]. *)
Definition subject_bases (s : string) (hits : list BlastLine) : Z :=
  sumZ (subject_width <$> filter (fun x => subject x = s) hits).

(** A subject reaches the band [pct] of its reference length. *)
Definition reaches (sizes : gmap string Z) (pct : Q) (bps : gmap string Z)
    (vh : string) : Prop :=
  exists len rsize,
    bps !! vh = Some len /\ sizes !! vh = Some rsize /\
    (pct <= float_of_int len * 100 / float_of_int rsize)%Q.

(** Every subject of the dict has a size, and not a zero one. *)
Definition sized (sizes : gmap string Z) (bps : gmap string Z) : Prop :=
  forall vh, is_Some (bps !! vh) -> exists rsize, sizes !! vh = Some rsize /\ rsize <> 0.

(** A computation whose effect on the files, events and outcome do not depend
    on the events that came before. *)
Definition stable {A} (m : M A) : Prop :=
  forall files, exists files' evs r,
    forall tr, m {| fs := files; trace := tr |}
               = ({| fs := files'; trace := tr ++ evs |}, r).

(** The state after a group that goes through. *)
Definition est_next (opts : options) (st : est_state) (q : string)
    (blines : list BlastLine) (size : Z) : est_state :=
  let this := sum_blines blines in
  let i := (100 - float_of_int (this_mismatches this + this_gaps this) * 100
                  / float_of_int (this_alignlen this))%Q in
  let c := (float_of_int (this_covered this) * 100 / float_of_int size)%Q in
  {| covered := covered st + this_covered this;
     mismatches := mismatches st + this_mismatches this;
     gaps := gaps st + this_gaps this;
     alignlen := alignlen st + this_alignlen this;
     queries := {[ q ]} ∪ queries st;
     valid_count := if is_valid opts i c then valid_count st + 1 else valid_count st;
     mapped_count := mapped_count st + 1 |}.

(** What a group that goes through prints: its line with [--list], nothing
    without. *)
Definition est_listed (opts : options) (q : string)
    (blines : list BlastLine) (size : Z) : list event :=
  let this := sum_blines blines in
  let i := (100 - float_of_int (this_mismatches this + this_gaps this) * 100
                  / float_of_int (this_alignlen this))%Q in
  let c := (float_of_int (this_covered this) * 100 / float_of_int size)%Q in
  if list_ opts then [EvStdout (LPerGene q i c)] else [].

(** Lines sent to the error stream, and queries listed on standard output. *)
Definition stderr_lines (tr : list event) : list line :=
  omap (fun e => match e with EvStderr l => Some l | _ => None end) tr.

Definition listed_queries (tr : list event) : list string :=
  omap (fun e => match e with EvStdout (LPerGene q _ _) => Some q | _ => None end) tr.

(** [sum(sizes[x] for x in queries)] when every lookup succeeds. *)
Definition pooled_size (sizes : gmap string Z) (qs : gset string) : Z :=
  sumZ ((fun q => default 0 (sizes !! q)) <$> elements qs).

(** The seven summary lines of [estsummary], from the final state. *)
Definition est_report_lines (opts : options) (sizes : gmap string Z)
    (st : est_state) : list line :=
  let total := len_map sizes in
  [ LCutoff (ident opts) (cov opts);
    LIdentity (mismatches st) (gaps st) (alignlen st);
    LTotalMapped (mapped_count st)
      (float_of_int (mapped_count st) * 100 / float_of_int total)%Q total;
    LTotalValid (valid_count st)
      (float_of_int (valid_count st) * 100 / float_of_int total)%Q total;
    LOverallIdent
      (100 - float_of_int (mismatches st + gaps st) * 100
             / float_of_int (alignlen st))%Q;
    LCoverage (covered st) (pooled_size sizes (queries st));
    LCoveragePct
      (float_of_int (covered st) * 100
       / float_of_int (pooled_size sizes (queries st)))%Q ].

(** Body of both loops over [bps.items()], the name added to the bands being
    a function of the subject: the contig, or the subject itself. *)
Definition classify_item (sizes : gmap string Z) (name : string -> string)
    (b : bands) (item : string * Z) : M bands :=
  let '(vh, length) := item in classify sizes (name vh) b vh length.

(** Integers small enough for the percentages to be the same computed on
    floats and on rationals: below [2^40], an integer and its product by 100
    are floats, and a quotient that is not at a whole threshold is further
    from it than the rounding of the division. *)
Definition in_float_range (m : gmap string Z) : Prop :=
  map_Forall (fun _ v => Z.abs v < 2 ^ 40) m.

(** ** Sample inputs *)

Definition hit (q s : string) (qa qb sa sb len mm gp : Z) : BlastLine :=
  {| query := q; subject := s; qstart := qa; qstop := qb;
     sstart := sa; sstop := sb; hitlen := len; nmismatch := mm; ngaps := gp |}.

Definition world0 : world := {| fs := ∅; trace := [] |}.

(** A command line without options: everything is positional. *)
Definition no_options (O : Type) (defaults : O) (args : list string) : O * list string :=
  (defaults, args).

(** One group per record, keyed by its query. *)
Definition one_per_line (lines : list BlastLine) : list (string * list BlastLine) :=
  (fun b => (query b, [b])) <$> lines.

Definition keep_all (filter : string) (lines : list BlastLine) : list BlastLine := lines.

(** * Properties *)

Lemma Qgtb_spec a b : Qgtb a b = true <-> (b < a)%Q.
Proof.
  unfold Qgtb. rewrite negb_true_iff, <- not_true_iff_false, Qle_bool_iff.
  split; [apply Qnot_le_lt | apply Qlt_not_le].
Qed.

Lemma Qgeb_spec a b : Qgeb a b = true <-> (b <= a)%Q.
Proof. unfold Qgeb. apply Qle_bool_iff. Qed.

Lemma float_of_int_zero n : Qeq_bool (float_of_int n) 0 = true <-> n = 0.
Proof.
  unfold float_of_int. rewrite Qeq_bool_iff.
  unfold Qeq, inject_Z; simpl. lia.
Qed.

Lemma fdiv_by_zero a n w :
  n = 0 -> fdiv a (float_of_int n) w = (w, Raise ZeroDivisionError).
Proof.
  intros Hn. unfold fdiv.
  destruct (Qeq_bool (float_of_int n) 0) eqn:E; [reflexivity|].
  apply float_of_int_zero in Hn. congruence.
Qed.

Lemma fdiv_nonzero a n w :
  n <> 0 -> fdiv a (float_of_int n) w = (w, Ok (a / float_of_int n)%Q).
Proof.
  intros Hn. unfold fdiv.
  destruct (Qeq_bool (float_of_int n) 0) eqn:E; [|reflexivity].
  apply float_of_int_zero in E. contradiction.
Qed.

(** ** estsummary: identity of a group without aligned length *)

Lemma compute_identity_zero s w :
  this_alignlen s = 0 -> compute_identity s w = (w, Raise ZeroDivisionError).
Proof.
  intros Hz. unfold compute_identity, bind.
  now rewrite fdiv_by_zero.
Qed.

Lemma compute_identity_nonzero s w :
  this_alignlen s <> 0 ->
  compute_identity s w =
    (w, Ok (100 - float_of_int (this_mismatches s + this_gaps s) * 100
                  / float_of_int (this_alignlen s))%Q).
Proof.
  intros Hz. unfold compute_identity, bind.
  now rewrite fdiv_nonzero.
Qed.

Lemma estsummary_hit_zero_alignlen opts sizes st q blines w :
  this_alignlen (sum_blines blines) = 0 ->
  compute_identity (sum_blines blines) w = (w, Raise ZeroDivisionError) /\
  estsummary_hit opts sizes st (q, blines) w = (w, Raise ZeroDivisionError).
Proof.
  intros Hz. split.
  - now apply compute_identity_zero.
  - unfold estsummary_hit, bind. now rewrite compute_identity_zero.
Qed.

(** C1, as the spec states it, fails: a query group with one record of hit
    length 0 makes the identity computation of [estsummary] raise
    [ZeroDivisionError] instead of returning 0 or a sentinel. *)
Lemma identity_unguarded_example :
  this_alignlen (sum_blines [hit "est1" "chr1" 1 10 1 10 0 0 0]) = 0 /\
  estsummary_hit estsummary_defaults {[ "est1" := 10 ]} est_state0
    ("est1", [hit "est1" "chr1" 1 10 1 10 0 0 0]) world0
  = (world0, Raise ZeroDivisionError).
Proof. split; reflexivity. Qed.

(** C1, amended: for every query group whose total aligned length is 0, the
    identity computation of [estsummary] is an unguarded division: it raises
    [ZeroDivisionError], no identity value is produced and the processing of
    the group stops there, whatever the options, the size table and the
    counts so far. *)
Theorem identity_zero_alignlen_raises
    (opts : options) (sizes : gmap string Z) (st : est_state)
    (q : string) (blines : list BlastLine) (w : world) :
  this_alignlen (sum_blines blines) = 0 ->
  compute_identity (sum_blines blines) w = (w, Raise ZeroDivisionError) /\
  estsummary_hit opts sizes st (q, blines) w = (w, Raise ZeroDivisionError).
Proof. apply estsummary_hit_zero_alignlen. Qed.

Lemma identity_zero_alignlen_raises_witness :
  this_alignlen (sum_blines [hit "est1" "chr1" 1 10 1 10 0 0 0]) = 0 /\
  compute_identity (sum_blines [hit "est1" "chr1" 1 10 1 10 0 0 0]) world0
    = (world0, Raise ZeroDivisionError) /\
  estsummary_hit estsummary_defaults ∅ est_state0
    ("est1", [hit "est1" "chr1" 1 10 1 10 0 0 0]) world0
    = (world0, Raise ZeroDivisionError).
Proof.
  split; [reflexivity|].
  apply (identity_zero_alignlen_raises estsummary_defaults ∅ est_state0 "est1"
           [hit "est1" "chr1" 1 10 1 10 0 0 0] world0).
  reflexivity.
Defined.

(** ** estsummary: covered bases of a group *)

Lemma fold_left_add_shift {A} (f : A -> Z) (l : list A) (a : Z) :
  fold_left (fun acc b => acc + f b) l a
  = a + fold_left (fun acc b => acc + f b) l 0.
Proof.
  revert a. induction l as [|x l IH]; intros a; simpl; [lia|].
  rewrite IH, (IH (0 + _)). lia.
Qed.

Lemma fold_add_bline_covered blines s :
  this_covered (fold_left add_bline blines s)
  = this_covered s
    + fold_left (fun acc b => acc + Z.abs (qstart b - qstop b + 1)) blines 0.
Proof.
  revert s. induction blines as [|b blines IH]; intros s; simpl.
  - lia.
  - rewrite IH. simpl.
    rewrite (fold_left_add_shift (fun b => Z.abs (qstart b - qstop b + 1))
               blines (0 + _)).
    lia.
Qed.

(** What the loop over the records adds up: [abs(qstart - qstop + 1)], the
    [+ 1] inside the absolute value. *)
Lemma this_covered_sum blines :
  this_covered (sum_blines blines)
  = fold_left (fun acc b => acc + Z.abs (qstart b - qstop b + 1)) blines 0.
Proof. unfold sum_blines. rewrite fold_add_bline_covered. simpl. lia. Qed.

(** On minus-strand records ([qstop <= qstart]) the two sums agree. *)
Lemma this_covered_minus_strand blines :
  Forall (fun b => qstop b <= qstart b) blines ->
  this_covered (sum_blines blines) = spec_covered_bases blines.
Proof.
  intros Hall. rewrite this_covered_sum. unfold spec_covered_bases.
  induction Hall as [|b l Hb Hl IH]; simpl; [reflexivity|].
  rewrite (fold_left_add_shift (fun b => Z.abs (qstart b - qstop b + 1))),
    (fold_left_add_shift (fun b => Z.abs (qstart b - qstop b) + 1)), IH.
  lia.
Qed.

(** A plus-strand record ([qstart < qstop]) is undercounted by 2. *)
Lemma this_covered_plus_strand b :
  qstart b < qstop b ->
  this_covered (sum_blines [b]) = spec_covered_bases [b] - 2.
Proof. intros Hlt. unfold spec_covered_bases. simpl. lia. Qed.

(** C2: the covered bases of a group are to be the sum of [|qstart - qstop| + 1].
    On the group made of one plus-strand record with query span 1..10,
    [estsummary] accumulates [abs(1 - 10 + 1) = 8], where the sum of
    [|qstart - qstop| + 1] is 10. *)
Theorem covered_bases_plus_strand_example :
  this_covered (sum_blines [hit "est1" "chr1" 1 10 101 110 10 0 0]) = 8 /\
  spec_covered_bases [hit "est1" "chr1" 1 10 101 110 10 0 0] = 10.
Proof. split; reflexivity. Qed.

(** ** Wrong argument count *)

Section Usage.

Variable parse_args : forall O : Type, O -> list string -> O * list string.
Variable BlastSlow_iter_hits : list BlastLine -> list (string * list BlastLine).
Variable Blast_iter_hits : list BlastLine -> list (string * list BlastLine).
Variable nonredundant : string -> list BlastLine -> list BlastLine.

Lemma estsummary_usage args w :
  length (parse_args options estsummary_defaults args).2 <> 2%nat ->
  estsummary parse_args BlastSlow_iter_hits args w
  = ({| fs := fs w; trace := trace w ++ [EvHelp estsummary_doc] |},
     Raise (SystemExit 0)).
Proof.
  intros Hlen. unfold estsummary.
  destruct (parse_args options estsummary_defaults args) as [opts pos]; simpl in *.
  apply Nat.eqb_neq in Hlen. rewrite Hlen. reflexivity.
Qed.

Lemma rnaseqbench_usage args w :
  length (parse_args unit tt args).2 <> 2%nat ->
  rnaseqbench parse_args Blast_iter_hits nonredundant args w
  = ({| fs := fs w; trace := trace w ++ [EvHelp rnaseqbench_doc] |},
     Raise (SystemExit 0)).
Proof.
  intros Hlen. unfold rnaseqbench.
  destruct (parse_args unit tt args) as [opts pos]; simpl in *.
  apply Nat.eqb_neq in Hlen. rewrite Hlen. reflexivity.
Qed.

End Usage.

(** C3, as the spec states it, fails: called with one argument, [estsummary]
    prints the help and leaves through [sys.exit(p.print_help())];
    [print_help] returns [None], so the exit status is 0, not a non-zero
    one. *)
Lemma usage_exit_status_example :
  estsummary no_options one_per_line ["est.blast"] world0
  = ({| fs := ∅; trace := [EvHelp estsummary_doc] |}, Raise (SystemExit 0)) /\
  rnaseqbench no_options one_per_line keep_all ["est.blast"] world0
  = ({| fs := ∅; trace := [EvHelp rnaseqbench_doc] |}, Raise (SystemExit 0)).
Proof. split; reflexivity. Qed.

(** C3, amended: for every invocation of [estsummary] or [rnaseqbench] whose
    positional argument count differs from 2, the program prints the usage
    help and exits at once, before any computation: the only event of the run
    is the help text, the file system is untouched and no file is opened.
    The exit status is the one [sys.exit] gives to the value of
    [print_help()], which is [None]: status 0. *)
Theorem usage_error_exits_before_computation
    (parse_args : forall O : Type, O -> list string -> O * list string)
    (BlastSlow_iter_hits Blast_iter_hits : list BlastLine -> list (string * list BlastLine))
    (nonredundant : string -> list BlastLine -> list BlastLine)
    (args : list string) (w : world) :
  (length (parse_args options estsummary_defaults args).2 <> 2%nat ->
   estsummary parse_args BlastSlow_iter_hits args w
   = ({| fs := fs w; trace := trace w ++ [EvHelp estsummary_doc] |},
      Raise (SystemExit 0))) /\
  (length (parse_args unit tt args).2 <> 2%nat ->
   rnaseqbench parse_args Blast_iter_hits nonredundant args w
   = ({| fs := fs w; trace := trace w ++ [EvHelp rnaseqbench_doc] |},
      Raise (SystemExit 0))).
Proof.
  split; intros Hlen.
  - now apply estsummary_usage.
  - now apply rnaseqbench_usage.
Qed.

Lemma usage_error_exits_before_computation_witness :
  estsummary no_options one_per_line ["a"; "b"; "c"] world0
  = ({| fs := ∅; trace := [EvHelp estsummary_doc] |}, Raise (SystemExit 0)) /\
  rnaseqbench no_options one_per_line keep_all [] world0
  = ({| fs := ∅; trace := [EvHelp rnaseqbench_doc] |}, Raise (SystemExit 0)).
Proof.
  destruct (usage_error_exits_before_computation no_options one_per_line
              one_per_line keep_all ["a"; "b"; "c"] world0) as [He _].
  destruct (usage_error_exits_before_computation no_options one_per_line
              one_per_line keep_all [] world0) as [_ Hr].
  split; [apply He | apply Hr]; simpl; lia.
Defined.

(** ** Loops *)

Lemma bind_Ok {A B} (m : M A) (k : A -> M B) w w' b :
  bind m k w = (w', Ok b) ->
  exists w1 a, m w = (w1, Ok a) /\ k a w1 = (w', Ok b).
Proof.
  unfold bind. destruct (m w) as [w1 [a|e]]; intros H; [eauto | discriminate].
Qed.

Lemma for_each_app {A S} (body : S -> A -> M S) xs ys st w :
  for_each body (xs ++ ys) st w
  = bind (for_each body xs st) (for_each body ys) w.
Proof.
  revert st w. induction xs as [|x xs IH]; intros st w; simpl.
  - reflexivity.
  - unfold bind at 1 3. unfold bind at 1.
    destruct (body st x w) as [w1 [st1|e]]; [|reflexivity].
    rewrite IH. reflexivity.
Qed.

(** A property of the loop state kept by every completed iteration holds
    when the loop completes. *)
Lemma for_each_invariant {A S} (P : S -> Prop) (body : S -> A -> M S) xs :
  (forall st x w w' st', P st -> body st x w = (w', Ok st') -> P st') ->
  forall st w w' st',
    P st -> for_each body xs st w = (w', Ok st') -> P st'.
Proof.
  intros Hbody. induction xs as [|x xs IH]; intros st w w' st' HP Hrun; simpl in Hrun.
  - unfold ret in Hrun. congruence.
  - apply bind_Ok in Hrun as (w1 & st1 & Hx & Hrest). eauto.
Qed.

(** ** rnaseqbench: subjects of a contig *)

Lemma dom_fold_add_bps hits (m : gmap string Z) :
  dom (fold_left add_bps hits m) = subjects hits ∪ dom m.
Proof.
  unfold subjects. revert m.
  induction hits as [|x hits IH]; intros m; simpl.
  - set_solver.
  - rewrite IH. unfold add_bps. rewrite dom_insert_L. set_solver.
Qed.

Lemma dom_sum_bps hits : dom (sum_bps hits) = subjects hits.
Proof. unfold sum_bps. rewrite dom_fold_add_bps. set_solver. Qed.

(** [len(valid_hits)] is the number of distinct subjects of the group. *)
Lemma length_valid_hits hits :
  length (map_to_list (sum_bps hits)) = size (subjects hits).
Proof. rewrite length_map_to_list, <- dom_sum_bps, size_dom. reflexivity. Qed.

Lemma rnaseqbench_hit_Ok sizes st ctg hits w w' st' :
  rnaseqbench_hit sizes st (ctg, hits) w = (w', Ok st') ->
  for_each (fun b '(vh, length) => classify sizes ctg b vh length)
           (map_to_list (sum_bps hits)) (goodctg st) w = (w', Ok (goodctg st')) /\
  chimers st' =
    if (1 <? Z.of_nat (size (subjects hits))) then chimers st + 1 else chimers st.
Proof.
  unfold rnaseqbench_hit. intros Hrun.
  apply bind_Ok in Hrun as (w1 & good & Hloop & Hret).
  unfold ret in Hret. injection Hret as <- <-. simpl.
  rewrite length_valid_hits. auto.
Qed.

(** Over a whole query pass: the chimera count is the number of groups with
    at least two distinct subjects. *)
Lemma chimers_count sizes groups st w w' st' :
  for_each (rnaseqbench_hit sizes) groups st w = (w', Ok st') ->
  chimers st' = chimers st
    + Z.of_nat (length (filter (fun g => (2 <= size (subjects g.2))%nat) groups)).
Proof.
  revert st w. induction groups as [|[ctg hits] groups IH]; intros st w Hrun;
    simpl in Hrun.
  - unfold ret in Hrun. injection Hrun as _ <-. simpl. lia.
  - apply bind_Ok in Hrun as (w1 & st1 & Hhit & Hrest).
    apply IH in Hrest. apply rnaseqbench_hit_Ok in Hhit as [_ Hch].
    rewrite filter_cons. simpl.
    destruct (1 <? Z.of_nat (size (subjects hits))) eqn:E.
    + apply Z.ltb_lt in E. rewrite decide_True by lia. simpl length. lia.
    + apply Z.ltb_ge in E. rewrite decide_False by lia. lia.
Qed.

(** ** rnaseqbench: the 80% band inside the 50% band *)

Lemma Qgeb_80_50 ratio : Qgeb ratio 80 = true -> Qgeb ratio 50 = true.
Proof.
  rewrite !Qgeb_spec. intros H80.
  apply Qle_trans with (y := 80%Q); [|exact H80].
  unfold Qle; simpl. lia.
Qed.

Lemma classify_nested sizes name st vh len w w' st' :
  nested st -> classify sizes name st vh len w = (w', Ok st') -> nested st'.
Proof.
  unfold nested, classify. intros Hsub Hrun.
  apply bind_Ok in Hrun as (w1 & rsize & _ & Hrun).
  apply bind_Ok in Hrun as (w2 & ratio & _ & Hret).
  unfold ret in Hret. injection Hret as _ <-. simpl.
  destruct (Qgeb ratio 80) eqn:E80.
  - rewrite (Qgeb_80_50 _ E80). set_solver.
  - destruct (Qgeb ratio 50); set_solver.
Qed.

Lemma rnaseqbench_hit_nested sizes st hit w w' st' :
  nested (goodctg st) ->
  rnaseqbench_hit sizes st hit w = (w', Ok st') ->
  nested (goodctg st').
Proof.
  destruct hit as [ctg hits]. intros Hsub Hrun.
  apply rnaseqbench_hit_Ok in Hrun as [Hloop _].
  revert Hsub Hloop. apply for_each_invariant.
  intros b [vh len] w1 w2 b'. apply classify_nested.
Qed.

Lemma rnaseqbench_ref_nested sizes lines w w' goodref :
  rnaseqbench_ref sizes lines w = (w', Ok goodref) -> nested goodref.
Proof.
  unfold rnaseqbench_ref.
  apply for_each_invariant with (P := nested).
  - intros b [vh len] w1 w2 b'. apply classify_nested.
  - unfold nested. simpl. set_solver.
Qed.

(** C8: when the two passes of [rnaseqbench] complete, the contigs of the 80%
    band are among those of the 50% band, and so are the reference
    sequences. *)
Theorem well_covered_subset_partially_covered
    (sizes : gmap string Z) (groups : list (string * list BlastLine))
    (lines : list BlastLine) (w1 w1' w2 w2' : world)
    (cs : ctg_state) (goodref : bands) :
  for_each (rnaseqbench_hit sizes) groups ctg_state0 w1 = (w1', Ok cs) ->
  rnaseqbench_ref sizes lines w2 = (w2', Ok goodref) ->
  good80 (goodctg cs) ⊆ good50 (goodctg cs) /\
  good80 goodref ⊆ good50 goodref.
Proof.
  intros Hq Hr. split.
  - revert Hq.
    apply for_each_invariant with (P := fun st => nested (goodctg st)).
    + intros st x w w' st'. apply rnaseqbench_hit_nested.
    + unfold nested. simpl. set_solver.
  - exact (rnaseqbench_ref_nested _ _ _ _ _ Hr).
Qed.

Lemma well_covered_subset_partially_covered_witness :
  let sizes : gmap string Z := {[ "geneA" := 1000; "geneB" := 200 ]} in
  let lines := [hit "ctg1" "geneA" 1 850 1 850 850 0 0;
                hit "ctg2" "geneB" 1 120 1 120 120 0 0] in
  let cs := {| chimers := 0;
               goodctg := {| good80 := {[ "ctg1" ]};
                             good50 := {[ "ctg2" ]} ∪ {[ "ctg1" ]} |} |} in
  good80 (goodctg cs) ⊆ good50 (goodctg cs) /\
  for_each (rnaseqbench_hit sizes) (one_per_line lines) ctg_state0 world0
    = (world0, Ok cs).
Proof.
  intros sizes lines cs.
  assert (Hq : for_each (rnaseqbench_hit sizes) (one_per_line lines)
                 ctg_state0 world0 = (world0, Ok cs))
    by (vm_compute; reflexivity).
  assert (Hr : rnaseqbench_ref sizes lines world0
               = (world0, Ok {| good80 := {[ "geneA" ]};
                                good50 := {[ "geneA"; "geneB" ]} |}))
    by (vm_compute; reflexivity).
  split; [|exact Hq].
  exact (proj1 (well_covered_subset_partially_covered _ _ _ _ _ _ _ _ _ Hq Hr)).
Defined.

(** ** rnaseqbench: the chimera count looks at subjects only *)

Lemma two_subjects hits x y :
  x ∈ hits -> y ∈ hits -> subject x <> subject y ->
  (2 <= size (subjects hits))%nat.
Proof.
  intros Hx Hy Hne.
  assert (Hsub : {[ subject x ]} ∪ {[ subject y ]} ⊆ subjects hits).
  { unfold subjects.
    apply union_subseteq; split; apply singleton_subseteq_l;
      apply elem_of_list_to_set, list_elem_of_fmap; eauto. }
  apply subseteq_size in Hsub.
  rewrite size_union, !size_singleton in Hsub by set_solver.
  exact Hsub.
Qed.

(** C9: the chimera classification of [rnaseqbench] has no minimum covered
    length and does not look at the bands: as soon as two retained records of
    a contig have different subjects, the contig is counted as chimeric,
    whatever the coordinates of the records, the sizes of the references and
    the bands the contig falls in. *)
Theorem chimera_ignores_length_and_bands
    (sizes : gmap string Z) (st st' : ctg_state) (ctg : string)
    (hits : list BlastLine) (x y : BlastLine) (w w' : world) :
  x ∈ hits -> y ∈ hits -> subject x <> subject y ->
  rnaseqbench_hit sizes st (ctg, hits) w = (w', Ok st') ->
  chimers st' = chimers st + 1.
Proof.
  intros Hx Hy Hne Hrun.
  pose proof (two_subjects _ _ _ Hx Hy Hne) as H2.
  apply rnaseqbench_hit_Ok in Hrun as [_ Hch].
  destruct (1 <? Z.of_nat (size (subjects hits))) eqn:E; [exact Hch|].
  apply Z.ltb_ge in E. lia.
Qed.

(** A contig with 10 bases on [geneA] and a single base on [geneB], both of
    length 1000: in neither band, and chimeric. *)
Lemma chimera_ignores_length_and_bands_witness :
  let x := hit "ctg1" "geneA" 1 10 1 10 10 0 0 in
  let y := hit "ctg1" "geneB" 11 11 7 7 1 0 0 in
  let sizes : gmap string Z := {[ "geneA" := 1000; "geneB" := 1000 ]} in
  let st' := {| chimers := 1; goodctg := {| good80 := ∅; good50 := ∅ |} |} in
  sum_bps [x; y] !! "geneB" = Some 1 /\
  rnaseqbench_hit sizes ctg_state0 ("ctg1", [x; y]) world0 = (world0, Ok st') /\
  chimers st' = chimers ctg_state0 + 1.
Proof.
  intros x y sizes st'.
  assert (Hrun : rnaseqbench_hit sizes ctg_state0 ("ctg1", [x; y]) world0
                 = (world0, Ok st'))
    by (vm_compute; reflexivity).
  split; [vm_compute; reflexivity|]. split; [exact Hrun|].
  apply (chimera_ignores_length_and_bands sizes ctg_state0 st' "ctg1" [x; y] x y
           world0 world0).
  - apply list_elem_of_here.
  - apply list_elem_of_further, list_elem_of_here.
  - discriminate.
  - exact Hrun.
Defined.

(** ** estsummary: validity of a query *)

Lemma getitem_Ok sizes k w w' v :
  getitem sizes k w = (w', Ok v) -> w' = w /\ sizes !! k = Some v.
Proof.
  unfold getitem. destruct (sizes !! k) as [v'|]; unfold ret, raise; intros H.
  - injection H as <- <-. auto.
  - discriminate.
Qed.

Lemma fdiv_Ok a b w w' q :
  fdiv a b w = (w', Ok q) -> w' = w /\ q = (a / b)%Q /\ Qeq_bool b 0 = false.
Proof.
  unfold fdiv. destruct (Qeq_bool b 0); unfold ret, raise; intros H.
  - discriminate.
  - injection H as <- <-. auto.
Qed.

Lemma compute_identity_Ok s w w' i :
  compute_identity s w = (w', Ok i) ->
  w' = w /\ this_alignlen s <> 0 /\
  i = (100 - float_of_int (this_mismatches s + this_gaps s) * 100
             / float_of_int (this_alignlen s))%Q.
Proof.
  unfold compute_identity. intros H.
  apply bind_Ok in H as (w1 & q & Hdiv & Hret).
  apply fdiv_Ok in Hdiv as (-> & -> & Hnz).
  unfold ret in Hret. injection Hret as <- <-.
  split; [reflexivity|]. split; [|reflexivity].
  intros Hz. apply float_of_int_zero in Hz. congruence.
Qed.

Lemma compute_coverage_Ok sizes q s w w' c :
  compute_coverage sizes q s w = (w', Ok c) ->
  w' = w /\ exists size, sizes !! q = Some size /\ size <> 0 /\
  c = (float_of_int (this_covered s) * 100 / float_of_int size)%Q.
Proof.
  unfold compute_coverage. intros H.
  apply bind_Ok in H as (w1 & size & Hget & Hdiv).
  apply getitem_Ok in Hget as [-> Hget].
  apply fdiv_Ok in Hdiv as (-> & -> & Hnz).
  split; [reflexivity|]. exists size.
  split; [exact Hget|]. split; [|reflexivity].
  intros Hz. apply float_of_int_zero in Hz. congruence.
Qed.

(** What a completed iteration of the [estsummary] loop does to the state. *)
Lemma estsummary_hit_Ok opts sizes st q blines w w' st' :
  estsummary_hit opts sizes st (q, blines) w = (w', Ok st') ->
  exists this_identity this_coverage,
    compute_identity (sum_blines blines) w = (w, Ok this_identity) /\
    compute_coverage sizes q (sum_blines blines) w = (w, Ok this_coverage) /\
    mapped_count st' = mapped_count st + 1 /\
    queries st' = {[ q ]} ∪ queries st /\
    valid_count st' =
      (if is_valid opts this_identity this_coverage
       then valid_count st + 1 else valid_count st).
Proof.
  unfold estsummary_hit. intros H.
  apply bind_Ok in H as (w1 & i & Hi & H).
  apply bind_Ok in H as (w2 & c & Hc & H).
  apply bind_Ok in H as (w3 & [] & _ & Hret).
  pose proof (compute_identity_Ok _ _ _ _ Hi) as [-> _].
  pose proof (compute_coverage_Ok _ _ _ _ _ _ Hc) as [-> _].
  unfold ret in Hret. injection Hret as _ <-. simpl.
  exists i, c. auto.
Qed.

Lemma is_valid_spec opts i c :
  is_valid opts i c = true <->
  (inject_Z (ident opts) < i)%Q /\ (inject_Z (cov opts) < c)%Q.
Proof.
  unfold is_valid, float_of_int.
  rewrite andb_true_iff, !Qgtb_spec. reflexivity.
Qed.

(** C6: a query is to be counted as valid exactly when its identity% is
    above the identity threshold and its coverage% above the coverage
    threshold, 95 and 90 by default.  On the query [est1] of length 100 with
    one plus-strand record on positions 1..91 and no mismatch nor gap, the
    identity is 100 and the covered bases [|1 - 91| + 1 = 91] give a coverage
    of 91, above 90; [estsummary] accumulates [abs(1 - 91 + 1) = 89], finds a
    coverage of 89 and does not count the query. *)
Theorem valid_plus_strand_undercount_example :
  let sizes : gmap string Z := {[ "est1" := 100 ]} in
  let blines := [hit "est1" "chr1" 1 91 1001 1091 91 0 0] in
  let st' := {| covered := 89; mismatches := 0; gaps := 0; alignlen := 91;
                queries := {[ "est1" ]}; valid_count := 0; mapped_count := 1 |} in
  estsummary_hit estsummary_defaults sizes est_state0 ("est1", blines) world0
    = (world0, Ok st') /\
  valid_count st' = valid_count est_state0 /\
  (exists this_identity,
     compute_identity (sum_blines blines) world0 = (world0, Ok this_identity) /\
     (inject_Z (ident estsummary_defaults) < this_identity)%Q) /\
  spec_covered_bases blines = 91 /\
  (inject_Z (cov estsummary_defaults)
   < float_of_int (spec_covered_bases blines) * 100 / float_of_int 100)%Q /\
  ident estsummary_defaults = 95 /\ cov estsummary_defaults = 90.
Proof.
  intros sizes blines st'.
  split; [vm_compute; reflexivity|]. split; [reflexivity|].
  split.
  - eexists. split; [vm_compute; reflexivity|]. vm_compute. reflexivity.
  - split; [reflexivity|]. split; [vm_compute; reflexivity|].
    split; reflexivity.
Qed.

(** ** estsummary: the counters *)

Lemma estsummary_loop_counts opts sizes groups st w w' st' :
  for_each (estsummary_hit opts sizes) groups st w = (w', Ok st') ->
  mapped_count st' = mapped_count st + Z.of_nat (length groups) /\
  valid_count st <= valid_count st' <= valid_count st + Z.of_nat (length groups) /\
  Forall (fun q => is_Some (sizes !! q)) groups.*1.
Proof.
  revert st w. induction groups as [|[q blines] groups IH]; intros st w Hrun;
    simpl in Hrun.
  - unfold ret in Hrun. injection Hrun as _ <-. simpl.
    split; [lia|]. split; [lia|constructor].
  - apply bind_Ok in Hrun as (w1 & st1 & Hhit & Hrest).
    apply IH in Hrest as (Hm & Hv & Hin).
    apply estsummary_hit_Ok in Hhit as (i & c & _ & Hc & Hm1 & _ & Hv1).
    apply compute_coverage_Ok in Hc as (_ & size & Hsize & _).
    split; [|split].
    + rewrite Hm, Hm1. simpl length. lia.
    + simpl length. destruct (is_valid opts i c); lia.
    + simpl. constructor; [eauto | exact Hin].
Qed.

(** Distinct keys of a dict are no more than its entries. *)
Lemma distinct_keys_bound (sizes : gmap string Z) (keys : list string) :
  NoDup keys -> Forall (fun q => is_Some (sizes !! q)) keys ->
  (length keys <= size sizes)%nat.
Proof.
  intros Hnd Hin.
  rewrite <- (size_list_to_set (C := gset string) keys Hnd), <- (size_dom (D := gset string)).
  apply subseteq_size. intros q Hq.
  apply elem_of_list_to_set in Hq. apply elem_of_dom.
  rewrite Forall_forall in Hin. auto.
Qed.

(** C7: [pre] are the groups consumed so far and [post] those to come, so
    that [st] is the state of the loop at any point between two iterations
    (and at its end when [post] is empty).  Then [valid_count <= mapped_count];
    and when every query id yielded is in the size table and no query group
    is yielded twice, [mapped_count <= total], also right after the
    [mapped_count += 1] of the next iteration. *)
Theorem counts_ordered_in_loop
    (opts : options) (sizes : gmap string Z)
    (pre post : list (string * list BlastLine)) (w w' : world) (st : est_state) :
  for_each (estsummary_hit opts sizes) pre est_state0 w = (w', Ok st) ->
  valid_count st <= mapped_count st /\
  (NoDup (pre ++ post).*1 ->
   Forall (fun q => is_Some (sizes !! q)) (pre ++ post).*1 ->
   mapped_count st <= len_map sizes /\
   (post <> [] ->
    valid_count st <= mapped_count st + 1 /\ mapped_count st + 1 <= len_map sizes)).
Proof.
  intros Hrun.
  apply estsummary_loop_counts in Hrun as (Hm & Hv & _). simpl in Hm, Hv.
  split; [lia|]. intros Hnd Hin.
  pose proof (distinct_keys_bound _ _ Hnd Hin) as Hbound.
  rewrite length_fmap, length_app in Hbound. unfold len_map.
  split; [lia|]. intros Hpost.
  destruct post as [|g post]; [contradiction|]. simpl in Hbound. lia.
Qed.

Lemma counts_ordered_in_loop_witness :
  let sizes : gmap string Z := {[ "est1" := 100; "est2" := 200; "est3" := 50 ]} in
  let pre := [("est1", [hit "est1" "chr1" 100 1 1 100 100 1 0]);
              ("est2", [hit "est2" "chr1" 60 1 1 60 60 6 0])] in
  let post := [("est3", [hit "est3" "chr2" 50 1 1 50 50 0 0])] in
  let st := {| covered := 160; mismatches := 7; gaps := 0; alignlen := 160;
               queries := {[ "est1"; "est2" ]};
               valid_count := 1; mapped_count := 2 |} in
  for_each (estsummary_hit estsummary_defaults sizes) pre est_state0 world0
    = (world0, Ok st) /\
  valid_count st <= mapped_count st /\
  mapped_count st <= len_map sizes /\
  mapped_count st + 1 <= len_map sizes.
Proof.
  intros sizes pre post st.
  assert (Hrun : for_each (estsummary_hit estsummary_defaults sizes) pre
                   est_state0 world0 = (world0, Ok st))
    by (vm_compute; reflexivity).
  destruct (counts_ordered_in_loop estsummary_defaults sizes pre post
              world0 world0 st Hrun) as [Hvm Hbound].
  destruct Hbound as [Hmt Hnext].
  - apply (bool_decide_unpack _). vm_compute. exact I.
  - repeat constructor; eexists; vm_compute; reflexivity.
  - destruct Hnext as [_ Hnext]; [discriminate|]. auto.
Defined.

(** ** Computations that only print *)

Lemma world_eta w : {| fs := fs w; trace := trace w |} = w.
Proof. destruct w; reflexivity. Qed.

Lemma prints_only_ret {A} (a : A) : prints_only (ret a).
Proof.
  intros w. exists []. simpl. rewrite app_nil_r, world_eta. auto.
Qed.

Lemma prints_only_raise {A} e : prints_only (@raise A e).
Proof.
  intros w. exists []. simpl. rewrite app_nil_r, world_eta. auto.
Qed.

Lemma prints_only_bind {A B} (m : M A) (k : A -> M B) :
  prints_only m -> (forall a, prints_only (k a)) -> prints_only (bind m k).
Proof.
  intros Hm Hk w. unfold bind.
  destruct (Hm w) as (evs1 & Hw1 & Hp1).
  destruct (m w) as [w1 [a|e]]; simpl in Hw1; subst w1.
  - destruct (Hk a {| fs := fs w; trace := trace w ++ evs1 |}) as (evs2 & Hw2 & Hp2).
    exists (evs1 ++ evs2). rewrite Hw2. simpl. rewrite app_assoc.
    split; [reflexivity|]. apply Forall_app; auto.
  - exists evs1. auto.
Qed.

Lemma prints_only_print_stderr l : prints_only (print_stderr l).
Proof. intros w. exists [EvStderr l]. simpl. auto. Qed.

Lemma prints_only_print_stdout l : prints_only (print_stdout l).
Proof. intros w. exists [EvStdout l]. simpl. auto. Qed.

Lemma prints_only_when b m : prints_only m -> prints_only (when b m).
Proof. destruct b; simpl; [auto | intros _; apply prints_only_ret]. Qed.

Lemma prints_only_fdiv a b : prints_only (fdiv a b).
Proof.
  unfold fdiv. destruct (Qeq_bool b 0);
    [apply prints_only_raise | apply prints_only_ret].
Qed.

Lemma prints_only_getitem d k : prints_only (getitem d k).
Proof.
  unfold getitem. destruct (d !! k);
    [apply prints_only_ret | apply prints_only_raise].
Qed.

Lemma prints_only_for_each {A S} (body : S -> A -> M S) xs :
  (forall st x, prints_only (body st x)) ->
  forall st, prints_only (for_each body xs st).
Proof.
  intros Hbody. induction xs as [|x xs IH]; intros st; simpl.
  - apply prints_only_ret.
  - apply prints_only_bind; auto.
Qed.

Create HintDb quiet.
#[local] Hint Resolve prints_only_ret prints_only_raise prints_only_print_stderr
  prints_only_print_stdout prints_only_when prints_only_fdiv
  prints_only_getitem : quiet.

Ltac quiet :=
  repeat first
    [ solve [auto with quiet]
    | apply prints_only_bind; [|intros ?]
    | apply prints_only_for_each; intros ? ? ].

Lemma prints_only_classify sizes name st vh len :
  prints_only (classify sizes name st vh len).
Proof. unfold classify. quiet. Qed.

Lemma prints_only_rnaseqbench_hit sizes st hit :
  prints_only (rnaseqbench_hit sizes st hit).
Proof.
  destruct hit as [ctg hits]. unfold rnaseqbench_hit. quiet.
  match goal with p : (string * Z)%type |- _ => destruct p end.
  apply prints_only_classify.
Qed.

Lemma prints_only_rnaseqbench_ref sizes lines :
  prints_only (rnaseqbench_ref sizes lines).
Proof.
  unfold rnaseqbench_ref. quiet.
  match goal with p : (string * Z)%type |- _ => destruct p end.
  apply prints_only_classify.
Qed.

Lemma prints_only_rnaseqbench_report reffasta known cs goodref :
  prints_only (rnaseqbench_report reffasta known cs goodref).
Proof. unfold rnaseqbench_report. quiet. Qed.

#[local] Hint Resolve prints_only_rnaseqbench_hit prints_only_rnaseqbench_ref
  prints_only_rnaseqbench_report : quiet.

Lemma printed_events evs :
  Forall (fun e => is_print e = true) evs ->
  filters_invoked evs = [] /\ paths_checked evs = [] /\ files_opened evs = [].
Proof.
  unfold filters_invoked, paths_checked, files_opened.
  induction 1 as [|e evs He _ (IH1 & IH2 & IH3)]; [auto|].
  destruct e; try discriminate; simpl; auto.
Qed.

(** Running a printing computation: same files, some printed lines more. *)
Lemma prints_only_run {A} (m : M A) w :
  prints_only m ->
  exists evs r, m w = ({| fs := fs w; trace := trace w ++ evs |}, r) /\
    filters_invoked evs = [] /\ paths_checked evs = [] /\ files_opened evs = [].
Proof.
  intros Hm. destruct (Hm w) as (evs & Hw & Hp).
  exists evs, (m w).2. split; [|now apply printed_events].
  rewrite <- Hw. destruct (m w); reflexivity.
Qed.

(** ** rnaseqbench: the filtered artifacts *)

Lemma filters_invoked_app tr1 tr2 :
  filters_invoked (tr1 ++ tr2) = filters_invoked tr1 ++ filters_invoked tr2.
Proof. apply omap_app. Qed.

Lemma paths_checked_app tr1 tr2 :
  paths_checked (tr1 ++ tr2) = paths_checked tr1 ++ paths_checked tr2.
Proof. apply omap_app. Qed.

Lemma files_opened_app tr1 tr2 :
  files_opened (tr1 ++ tr2) = files_opened tr1 ++ files_opened tr2.
Proof. apply omap_app. Qed.

Lemma Blast_run path w :
  Blast path w =
    ({| fs := fs w; trace := trace w ++ [EvOpen path] |},
     match fs w !! path with
     | Some (BlastFile lines) => Ok lines
     | _ => Raise (IOError path)
     end).
Proof.
  unfold Blast, bind, emit, get_fs. simpl.
  destruct (fs w !! path) as [[m|lines]|]; reflexivity.
Qed.

Lemma op_exists_run path w :
  op_exists path w =
    ({| fs := fs w;
        trace := trace w ++ [EvExists path (bool_decide (is_Some (fs w !! path)))] |},
     Ok (bool_decide (is_Some (fs w !! path)))).
Proof. reflexivity. Qed.

Section Passes.

Variable Blast_iter_hits : list BlastLine -> list (string * list BlastLine).
Variables (sizes : gmap string Z) (reffasta querysupermap refsupermap : string).

Lemma passes_run w :
  exists evs res,
    rnaseqbench_passes Blast_iter_hits sizes reffasta querysupermap refsupermap w
    = ({| fs := fs w; trace := trace w ++ evs |}, res) /\
    filters_invoked evs = [] /\ paths_checked evs = [] /\
    (files_opened evs = [querysupermap] \/
     files_opened evs = [querysupermap; refsupermap]) /\
    (completes res -> files_opened evs = [querysupermap; refsupermap]).
Proof.
  unfold rnaseqbench_passes. unfold bind at 1. rewrite Blast_run.
  destruct (fs w !! querysupermap) as [[m|lines]|].
  1, 3: exists [EvOpen querysupermap]; eexists; split; [reflexivity|];
        simpl; intuition.
  unfold bind at 1.
  destruct (prints_only_run
              (for_each (rnaseqbench_hit sizes) (Blast_iter_hits lines) ctg_state0)
              {| fs := fs w; trace := trace w ++ [EvOpen querysupermap] |})
    as (evs1 & r1 & -> & Hf1 & Hp1 & Ho1); [quiet|]. simpl fs; simpl trace.
  destruct r1 as [cs|e].
  2: { exists (EvOpen querysupermap :: evs1). eexists.
       rewrite <- app_assoc. split; [reflexivity|].
       change (EvOpen querysupermap :: evs1) with ([EvOpen querysupermap] ++ evs1).
       rewrite filters_invoked_app, paths_checked_app, files_opened_app, Hf1, Hp1, Ho1.
       simpl. intuition. }
  unfold bind at 1. rewrite Blast_run. simpl fs; simpl trace.
  destruct (fs w !! refsupermap) as [[m|rlines]|].
  1, 3: exists ([EvOpen querysupermap] ++ evs1 ++ [EvOpen refsupermap]); eexists;
        rewrite <- !app_assoc; (split; [reflexivity|]);
        rewrite !filters_invoked_app, !paths_checked_app, !files_opened_app,
          Hf1, Hp1, Ho1; simpl; intuition.
  unfold bind at 1.
  destruct (prints_only_run (rnaseqbench_ref sizes rlines)
              {| fs := fs w;
                 trace := ((trace w ++ [EvOpen querysupermap]) ++ evs1)
                          ++ [EvOpen refsupermap] |})
    as (evs2 & r2 & -> & Hf2 & Hp2 & Ho2); [quiet|]. simpl fs; simpl trace.
  destruct r2 as [goodref|e].
  2: { exists ([EvOpen querysupermap] ++ evs1 ++ [EvOpen refsupermap] ++ evs2).
       eexists. rewrite <- !app_assoc. split; [reflexivity|].
       rewrite !filters_invoked_app, !paths_checked_app, !files_opened_app,
         Hf1, Hp1, Ho1, Hf2, Hp2, Ho2. simpl. intuition. }
  destruct (prints_only_run (rnaseqbench_report reffasta (len_map sizes) cs goodref)
              {| fs := fs w;
                 trace := (((trace w ++ [EvOpen querysupermap]) ++ evs1)
                           ++ [EvOpen refsupermap]) ++ evs2 |})
    as (evs3 & r3 & -> & Hf3 & Hp3 & Ho3); [quiet|]. simpl fs; simpl trace.
  exists ([EvOpen querysupermap] ++ evs1 ++ [EvOpen refsupermap] ++ evs2 ++ evs3).
  exists r3. rewrite <- !app_assoc. split; [reflexivity|].
  rewrite !filters_invoked_app, !paths_checked_app, !files_opened_app,
    Hf1, Hp1, Ho1, Hf2, Hp2, Ho2, Hf3, Hp3, Ho3. simpl. intuition.
Qed.

End Passes.

Lemma Sizes_run path w :
  Sizes path w =
    ({| fs := fs w; trace := trace w ++ [EvOpen path] |},
     match fs w !! path with
     | Some (SizesFile mapping) => Ok mapping
     | _ => Raise (IOError path)
     end).
Proof.
  unfold Sizes, bind, emit, get_fs. simpl.
  destruct (fs w !! path) as [[m|lines]|]; reflexivity.
Qed.

Lemma append_ne (s suffix : string) : suffix <> "" -> s +:+ suffix <> s.
Proof.
  intros Hne. induction s as [|a s IH]; simpl.
  - exact Hne.
  - intros Heq. injection Heq as Heq. contradiction.
Qed.

Lemma supermap_paths_differ (blastfile : string) :
  blastfile +:+ ".query.supermap" <> blastfile +:+ ".ref.supermap".
Proof. intros Heq. apply (inj (String.app blastfile)) in Heq. discriminate. Qed.

Section Artifacts.

Variable parse_args : forall O : Type, O -> list string -> O * list string.
Variable Blast_iter_hits : list BlastLine -> list (string * list BlastLine).
Variable nonredundant : string -> list BlastLine -> list BlastLine.

Lemma supermap_run blastfile filter lines w :
  fs w !! blastfile = Some (BlastFile lines) ->
  supermap nonredundant blastfile filter w =
    ({| fs := <[supermap_path blastfile filter :=
                  BlastFile (nonredundant filter lines)]> (fs w);
        trace := trace w ++ [EvSupermap blastfile filter; EvOpen blastfile] |},
     Ok tt).
Proof.
  intros Hb. unfold supermap, bind at 1, emit. unfold bind at 1.
  rewrite Blast_run. simpl. rewrite Hb. unfold put_file. simpl.
  rewrite <- app_assoc. reflexivity.
Qed.

(** After the help test: the size table, the two checks and the passes. *)
Lemma rnaseqbench_two_args args blastfile reffasta w :
  parse_args unit tt args = (tt, [blastfile; reffasta]) ->
  rnaseqbench parse_args Blast_iter_hits nonredundant args w =
    (do sizes <- Sizes reffasta;
     do qfound <- op_exists (blastfile +:+ ".query.supermap");
     exec when (negb qfound) (supermap nonredundant blastfile "query");
     do rfound <- op_exists (blastfile +:+ ".ref.supermap");
     exec when (negb rfound) (supermap nonredundant blastfile "ref");
     do blast <- Blast (blastfile +:+ ".query.supermap");
     do cs <- for_each (rnaseqbench_hit sizes) (Blast_iter_hits blast) ctg_state0;
     do blast <- Blast (blastfile +:+ ".ref.supermap");
     do goodref <- rnaseqbench_ref sizes blast;
     rnaseqbench_report reffasta (len_map sizes) cs goodref) w.
Proof. intros Hparse. unfold rnaseqbench. rewrite Hparse. reflexivity. Qed.

(** The run of [rnaseqbench] on two arguments, a readable size table and a
    readable alignment file: what it does up to the passes. *)
Lemma rnaseqbench_run args blastfile reffasta files sizes lines :
  parse_args unit tt args = (tt, [blastfile; reffasta]) ->
  files !! reffasta = Some (SizesFile sizes) ->
  files !! blastfile = Some (BlastFile lines) ->
  let querysupermap := blastfile +:+ ".query.supermap" in
  let refsupermap := blastfile +:+ ".ref.supermap" in
  let qfound := bool_decide (is_Some (files !! querysupermap)) in
  let rfound := bool_decide (is_Some (files !! refsupermap)) in
  let files1 :=
    if qfound then files
    else <[querysupermap := BlastFile (nonredundant "query" lines)]> files in
  let files2 :=
    if rfound then files1
    else <[refsupermap := BlastFile (nonredundant "ref" lines)]> files1 in
  let head :=
    [EvOpen reffasta; EvExists querysupermap qfound]
    ++ (if qfound then [] else [EvSupermap blastfile "query"; EvOpen blastfile])
    ++ [EvExists refsupermap rfound]
    ++ (if rfound then [] else [EvSupermap blastfile "ref"; EvOpen blastfile]) in
  exists evs res,
    rnaseqbench parse_args Blast_iter_hits nonredundant args
      {| fs := files; trace := [] |}
    = ({| fs := files2; trace := head ++ evs |}, res) /\
    filters_invoked evs = [] /\ paths_checked evs = [] /\
    (files_opened evs = [querysupermap] \/
     files_opened evs = [querysupermap; refsupermap]) /\
    (completes res -> files_opened evs = [querysupermap; refsupermap]).
Proof.
  intros Hparse Hf Hb querysupermap refsupermap qfound rfound files1 files2 head.
  rewrite (rnaseqbench_two_args _ _ _ _ Hparse).
  fold querysupermap refsupermap.
  unfold bind at 1. rewrite Sizes_run. simpl fs; simpl trace. rewrite Hf.
  unfold bind at 1. rewrite op_exists_run. simpl fs; simpl trace. fold qfound.
  assert (Hqr : querysupermap <> refsupermap) by apply supermap_paths_differ.
  assert (Hqb : querysupermap <> blastfile) by (apply append_ne; discriminate).
  assert (Hb1 : files1 !! blastfile = Some (BlastFile lines)).
  { subst files1. destruct qfound; [exact Hb|].
    rewrite lookup_insert_ne by exact Hqb. exact Hb. }
  assert (Hr1 : bool_decide (is_Some (files1 !! refsupermap)) = rfound).
  { subst files1. destruct qfound; [reflexivity|].
    rewrite lookup_insert_ne by exact Hqr. reflexivity. }
  unfold bind at 1.
  match goal with
  | |- context [when (negb qfound) ?m ?w] =>
      assert (Hq : when (negb qfound) m w
                   = ({| fs := files1;
                         trace := trace w
                                  ++ (if qfound then []
                                      else [EvSupermap blastfile "query"; EvOpen blastfile]) |},
                      Ok tt))
  end.
  { subst files1. destruct qfound; simpl negb; simpl when.
    - unfold ret. simpl trace. now rewrite app_nil_r.
    - now rewrite (supermap_run _ _ lines) by exact Hb. }
  rewrite Hq. clear Hq.
  unfold bind at 1. rewrite op_exists_run. simpl fs; simpl trace. rewrite Hr1.
  unfold bind at 1.
  match goal with
  | |- context [when (negb rfound) ?m ?w] =>
      assert (Hr : when (negb rfound) m w
                   = ({| fs := files2;
                         trace := trace w
                                  ++ (if rfound then []
                                      else [EvSupermap blastfile "ref"; EvOpen blastfile]) |},
                      Ok tt))
  end.
  { subst files2. destruct rfound; simpl negb; simpl when.
    - unfold ret. simpl trace. now rewrite app_nil_r.
    - now rewrite (supermap_run _ _ lines) by exact Hb1. }
  rewrite Hr. clear Hr. simpl trace.
  match goal with
  | |- context [bind (Blast querysupermap) ?k ?w] =>
      destruct (passes_run Blast_iter_hits sizes reffasta querysupermap refsupermap w)
        as (evs & res & Hrun & Hfacts)
  end.
  exists evs, res. split; [|exact Hfacts].
  unfold rnaseqbench_passes in Hrun. rewrite Hrun. subst head. simpl. rewrite <- !app_assoc. reflexivity.
Qed.

(** C5: [rnaseqbench], given an alignment file and a size table it can read,
    checks exactly the two paths made of the alignment file path and the
    suffixes [.query.supermap] and [.ref.supermap], in this order, and calls
    the redundancy filter for a direction exactly when the artifact of that
    direction is not on disk.  When both are there, no filter is called, the
    files are left as they are, and the files opened are the size table and
    the artifacts: the query one, then, once the query pass is through, the
    reference one; both in a run that completes. *)
Theorem supermap_invoked_iff_artifact_missing
    (args : list string) (blastfile reffasta : string)
    (files : gmap string file) (sizes : gmap string Z) (lines : list BlastLine) :
  parse_args unit tt args = (tt, [blastfile; reffasta]) ->
  files !! reffasta = Some (SizesFile sizes) ->
  files !! blastfile = Some (BlastFile lines) ->
  let querysupermap := blastfile +:+ ".query.supermap" in
  let refsupermap := blastfile +:+ ".ref.supermap" in
  let qfound := bool_decide (is_Some (files !! querysupermap)) in
  let rfound := bool_decide (is_Some (files !! refsupermap)) in
  let run := rnaseqbench parse_args Blast_iter_hits nonredundant args
               {| fs := files; trace := [] |} in
  paths_checked (trace run.1) = [querysupermap; refsupermap] /\
  filters_invoked (trace run.1) =
    (if qfound then [] else [(blastfile, "query")])
    ++ (if rfound then [] else [(blastfile, "ref")]) /\
  (qfound = true -> rfound = true ->
   fs run.1 = files /\
   (files_opened (trace run.1) = [reffasta; querysupermap] \/
    files_opened (trace run.1) = [reffasta; querysupermap; refsupermap]) /\
   (completes run.2 ->
    files_opened (trace run.1) = [reffasta; querysupermap; refsupermap])).
Proof.
  intros Hparse Hf Hb querysupermap refsupermap qfound rfound run.
  destruct (rnaseqbench_run _ _ _ _ _ _ Hparse Hf Hb)
    as (evs & res & Hrun & Hfi & Hpc & Hop & Hdone).
  fold querysupermap refsupermap qfound rfound in Hrun, Hop, Hdone.
  subst run. rewrite Hrun. cbn [fst snd fs trace].
  rewrite !filters_invoked_app, !paths_checked_app, !files_opened_app, Hfi, Hpc.
  split; [|split].
  - destruct qfound, rfound; reflexivity.
  - destruct qfound, rfound; reflexivity.
  - intros -> ->. simpl. split; [reflexivity|].
    split; [destruct Hop as [-> | ->]; auto | intros Hc; now rewrite Hdone].
Qed.

End Artifacts.

(** The query artifact is on disk and the reference one is not: only the
    reference filter is called. *)
Lemma supermap_invoked_iff_artifact_missing_witness :
  let hits := [hit "ctg1" "geneA" 1 850 1 850 850 0 0] in
  let files : gmap string file :=
    {[ "ref.fasta" := SizesFile {[ "geneA" := 1000 ]};
       "ctg.blast" := BlastFile hits;
       "ctg.blast.query.supermap" := BlastFile hits ]} in
  let run := rnaseqbench no_options one_per_line keep_all
               ["ctg.blast"; "ref.fasta"] {| fs := files; trace := [] |} in
  files !! "ref.fasta" = Some (SizesFile {[ "geneA" := 1000 ]}) /\
  files !! "ctg.blast" = Some (BlastFile hits) /\
  paths_checked (trace run.1)
    = ["ctg.blast.query.supermap"; "ctg.blast.ref.supermap"] /\
  filters_invoked (trace run.1) = [("ctg.blast", "ref")].
Proof.
  intros hits files run.
  assert (Hf : files !! "ref.fasta" = Some (SizesFile {[ "geneA" := 1000 ]}))
    by (vm_compute; reflexivity).
  assert (Hb : files !! "ctg.blast" = Some (BlastFile hits))
    by (vm_compute; reflexivity).
  split; [exact Hf|]. split; [exact Hb|].
  destruct (supermap_invoked_iff_artifact_missing no_options one_per_line keep_all
              ["ctg.blast"; "ref.fasta"] "ctg.blast" "ref.fasta" files
              {[ "geneA" := 1000 ]} hits eq_refl Hf Hb) as (Hpaths & Hfilters & _).
  split; [exact Hpaths | exact Hfilters].
Defined.

(** ** An empty size table *)

Lemma sum_bps_nonempty x hits : map_to_list (sum_bps (x :: hits)) <> [].
Proof.
  rewrite map_to_list_empty_iff. intros Hempty.
  assert (Hin : subject x ∈ dom (sum_bps (x :: hits))).
  { rewrite dom_sum_bps. unfold subjects. set_solver. }
  rewrite Hempty in Hin. set_solver.
Qed.

(** With no size at all, the first subject of a contig is a lookup failure. *)
Lemma rnaseqbench_hit_no_sizes st ctg x hits w :
  exists vh, rnaseqbench_hit ∅ st (ctg, x :: hits) w = (w, Raise (KeyError vh)).
Proof.
  unfold rnaseqbench_hit.
  pose proof (sum_bps_nonempty x hits) as Hne.
  destruct (map_to_list (sum_bps (x :: hits))) as [|[vh len] items];
    [contradiction|].
  exists vh. reflexivity.
Qed.

(** With no size at all, a query group fails on its own identity when it has
    no aligned length, and on the lookup of its size otherwise. *)
Lemma estsummary_hit_no_sizes opts st q blines w :
  estsummary_hit opts ∅ st (q, blines) w =
    (w, Raise (if this_alignlen (sum_blines blines) =? 0
               then ZeroDivisionError else KeyError q)).
Proof.
  destruct (this_alignlen (sum_blines blines) =? 0) eqn:E.
  - apply Z.eqb_eq in E.
    now destruct (estsummary_hit_zero_alignlen opts ∅ st q blines w E).
  - apply Z.eqb_neq in E. unfold estsummary_hit.
    unfold bind at 1. rewrite compute_identity_nonzero by exact E.
    reflexivity.
Qed.

(** C10, as stated, fails: with an empty size table and one aligned query,
    [estsummary] stops at that query on the lookup of its size, with a
    [KeyError] and before any summary line, not on a division by zero in the
    summaries; and so does [rnaseqbench] on the first subject of its first
    contig. *)
Lemma empty_size_table_lookup_failure_example :
  let hits := [hit "est1" "chr1" 100 1 1 100 100 2 1] in
  let files : gmap string file :=
    {[ "est.fasta" := SizesFile ∅;
       "est.blast" := BlastFile hits;
       "est.blast.query.supermap" := BlastFile hits;
       "est.blast.ref.supermap" := BlastFile hits ]} in
  estsummary no_options one_per_line ["est.blast"; "est.fasta"]
    {| fs := files; trace := [] |}
  = ({| fs := files; trace := [EvOpen "est.fasta"; EvOpen "est.blast"] |},
     Raise (KeyError "est1")) /\
  rnaseqbench no_options one_per_line keep_all ["est.blast"; "est.fasta"]
    {| fs := files; trace := [] |}
  = ({| fs := files;
        trace := [EvOpen "est.fasta";
                  EvExists "est.blast.query.supermap" true;
                  EvExists "est.blast.ref.supermap" true;
                  EvOpen "est.blast.query.supermap"] |},
     Raise (KeyError "chr1")).
Proof. split; vm_compute; reflexivity. Qed.

Section EmptySizes.

Variable parse_args : forall O : Type, O -> list string -> O * list string.
Variable BlastSlow_iter_hits : list BlastLine -> list (string * list BlastLine).
Variable Blast_iter_hits : list BlastLine -> list (string * list BlastLine).
Variable nonredundant : string -> list BlastLine -> list BlastLine.

Lemma estsummary_two_args args opts blastfile fastafile w :
  parse_args options estsummary_defaults args = (opts, [blastfile; fastafile]) ->
  estsummary parse_args BlastSlow_iter_hits args w =
    (do sizes <- Sizes fastafile;
     do blast <- BlastSlow blastfile;
     do st <- for_each (estsummary_hit opts sizes)
                       (BlastSlow_iter_hits blast) est_state0;
     estsummary_report opts sizes (len_map sizes) st) w.
Proof. intros Hparse. unfold estsummary. rewrite Hparse. reflexivity. Qed.

Lemma estsummary_empty_sizes args opts blastfile fastafile files lines :
  parse_args options estsummary_defaults args = (opts, [blastfile; fastafile]) ->
  files !! fastafile = Some (SizesFile ∅) ->
  files !! blastfile = Some (BlastFile lines) ->
  estsummary parse_args BlastSlow_iter_hits args {| fs := files; trace := [] |} =
    match BlastSlow_iter_hits lines with
    | [] =>
        ({| fs := files;
            trace := [EvOpen fastafile; EvOpen blastfile;
                      EvStderr (LCutoff (ident opts) (cov opts));
                      EvStderr (LIdentity 0 0 0)] |},
         Raise ZeroDivisionError)
    | (q, blines) :: _ =>
        ({| fs := files; trace := [EvOpen fastafile; EvOpen blastfile] |},
         Raise (if this_alignlen (sum_blines blines) =? 0
                then ZeroDivisionError else KeyError q))
    end.
Proof.
  intros Hparse Hf Hb. rewrite (estsummary_two_args _ _ _ _ _ Hparse).
  unfold bind at 1. rewrite Sizes_run. cbn [fs trace]. rewrite Hf.
  unfold bind at 1. unfold BlastSlow. rewrite Blast_run. cbn [fs trace]. rewrite Hb.
  destruct (BlastSlow_iter_hits lines) as [|[q blines] rest].
  - reflexivity.
  - unfold bind at 1. cbn [for_each]. unfold bind at 1.
    rewrite estsummary_hit_no_sizes. reflexivity.
Qed.

End EmptySizes.

(** * Further properties of [estsummary] *)

(** ** One iteration, in full *)

Lemma getitem_Some sizes k v w : sizes !! k = Some v -> getitem sizes k w = (w, Ok v).
Proof. intros H. unfold getitem. now rewrite H. Qed.

Lemma getitem_None sizes k w :
  sizes !! k = None -> getitem sizes k w = (w, Raise (KeyError k)).
Proof. intros H. unfold getitem. now rewrite H. Qed.

Lemma estsummary_hit_success opts sizes st q blines size w :
  this_alignlen (sum_blines blines) <> 0 ->
  sizes !! q = Some size -> size <> 0 ->
  estsummary_hit opts sizes st (q, blines) w =
    ({| fs := fs w; trace := trace w ++ est_listed opts q blines size |},
     Ok (est_next opts st q blines size)).
Proof.
  intros Hlen Hsize Hnz. unfold estsummary_hit, est_listed, est_next.
  unfold bind at 1. rewrite compute_identity_nonzero by exact Hlen.
  unfold bind at 1. unfold compute_coverage. unfold bind at 1.
  rewrite (getitem_Some _ _ _ _ Hsize), fdiv_nonzero by exact Hnz.
  destruct (list_ opts); simpl when.
  - reflexivity.
  - unfold bind, ret. simpl. now rewrite app_nil_r, world_eta.
Qed.

Lemma estsummary_hit_inv opts sizes st q blines w w' st' :
  estsummary_hit opts sizes st (q, blines) w = (w', Ok st') ->
  exists size,
    this_alignlen (sum_blines blines) <> 0 /\ sizes !! q = Some size /\ size <> 0 /\
    w' = {| fs := fs w; trace := trace w ++ est_listed opts q blines size |} /\
    st' = est_next opts st q blines size.
Proof.
  intros Hrun.
  pose proof (estsummary_hit_Ok _ _ _ _ _ _ _ _ Hrun) as (i & c & Hi & Hc & _).
  apply compute_identity_Ok in Hi as (_ & Hlen & _).
  apply compute_coverage_Ok in Hc as (_ & size & Hsize & Hnz & _).
  exists size. rewrite (estsummary_hit_success _ _ _ _ _ _ _ Hlen Hsize Hnz) in Hrun.
  injection Hrun as <- <-. auto.
Qed.

(** ** What the loop accumulates *)

Lemma sumZ_app l1 l2 : sumZ (l1 ++ l2) = sumZ l1 + sumZ l2.
Proof. unfold sumZ. induction l1 as [|x l1 IH]; simpl; lia. Qed.

Lemma fold_add_bline blines s :
  let s' := fold_left add_bline blines s in
  this_covered s' = this_covered s
                    + sumZ ((fun b => Z.abs (qstart b - qstop b + 1)) <$> blines) /\
  this_alignlen s' = this_alignlen s + sumZ (hitlen <$> blines) /\
  this_mismatches s' = this_mismatches s + sumZ (nmismatch <$> blines) /\
  this_gaps s' = this_gaps s + sumZ (ngaps <$> blines).
Proof.
  revert s. induction blines as [|b blines IH]; intros s; simpl.
  - unfold sumZ; simpl. repeat split; lia.
  - destruct (IH (add_bline s b)) as (Hc & Ha & Hm & Hg).
    rewrite Hc, Ha, Hm, Hg. unfold sumZ; simpl.
    repeat split; rewrite <- Z.add_assoc; reflexivity.
Qed.

Lemma sum_blines_sums blines :
  this_covered (sum_blines blines)
    = sumZ ((fun b => Z.abs (qstart b - qstop b + 1)) <$> blines) /\
  this_alignlen (sum_blines blines) = sumZ (hitlen <$> blines) /\
  this_mismatches (sum_blines blines) = sumZ (nmismatch <$> blines) /\
  this_gaps (sum_blines blines) = sumZ (ngaps <$> blines).
Proof.
  unfold sum_blines. destruct (fold_add_bline blines sums0) as (Hc & Ha & Hm & Hg).
  rewrite Hc, Ha, Hm, Hg. simpl. repeat split; lia.
Qed.

Lemma size_list_to_set_le (l : list string) :
  (size (list_to_set (C := gset string) l) <= length l)%nat.
Proof.
  induction l as [|x l IH].
  - rewrite list_to_set_nil, size_empty. simpl. lia.
  - rewrite list_to_set_cons, size_union_alt, size_singleton.
    assert (Hd : list_to_set (C := gset string) l ∖ {[ x ]} ⊆ list_to_set l)
      by set_solver.
    apply subseteq_size in Hd. simpl length. lia.
Qed.

Lemma size_list_to_set_NoDup (l : list string) :
  size (list_to_set (C := gset string) l) = length l -> NoDup l.
Proof.
  induction l as [|x l IH]; intros Hsize; [constructor|].
  pose proof (size_list_to_set_le l) as Hle.
  rewrite list_to_set_cons in Hsize. simpl length in Hsize.
  destruct (decide (x ∈ l)) as [Hin|Hnin].
  - assert (Heq : {[ x ]} ∪ list_to_set (C := gset string) l = list_to_set l)
      by set_solver.
    rewrite Heq in Hsize. lia.
  - constructor; [exact Hnin|]. apply IH.
    rewrite size_union, size_singleton in Hsize by set_solver. lia.
Qed.

Lemma estsummary_loop_totals opts sizes groups st w w' st' :
  for_each (estsummary_hit opts sizes) groups st w = (w', Ok st') ->
  covered st' = covered st
    + sumZ ((fun b => Z.abs (qstart b - qstop b + 1)) <$> all_blines groups) /\
  alignlen st' = alignlen st + sumZ (hitlen <$> all_blines groups) /\
  mismatches st' = mismatches st + sumZ (nmismatch <$> all_blines groups) /\
  gaps st' = gaps st + sumZ (ngaps <$> all_blines groups).
Proof.
  revert st w. induction groups as [|[q blines] groups IH]; intros st w Hrun;
    simpl in Hrun.
  - unfold ret in Hrun. injection Hrun as _ <-. unfold all_blines. simpl.
    repeat split; lia.
  - apply bind_Ok in Hrun as (w1 & st1 & Hhit & Hrest).
    apply IH in Hrest as (Hc & Ha & Hm & Hg).
    apply estsummary_hit_inv in Hhit as (size & _ & _ & _ & _ & ->).
    destruct (sum_blines_sums blines) as (Hc1 & Ha1 & Hm1 & Hg1).
    unfold all_blines in *. rewrite fmap_cons. cbn [concat snd].
    rewrite !fmap_app, !sumZ_app, Hc, Ha, Hm, Hg.
    unfold est_next. cbn [covered alignlen mismatches gaps].
    rewrite Hc1, Ha1, Hm1, Hg1. repeat split; lia.
Qed.

(** X1: when the loop of [estsummary] completes, the four totals are the sums
    over every record of every group: the overall figures are pooled over the
    records, whatever the grouping. *)
Theorem estsummary_totals_pooled
    (opts : options) (sizes : gmap string Z)
    (groups : list (string * list BlastLine)) (w w' : world) (st : est_state) :
  for_each (estsummary_hit opts sizes) groups est_state0 w = (w', Ok st) ->
  covered st = sumZ ((fun b => Z.abs (qstart b - qstop b + 1)) <$> all_blines groups) /\
  alignlen st = sumZ (hitlen <$> all_blines groups) /\
  mismatches st = sumZ (nmismatch <$> all_blines groups) /\
  gaps st = sumZ (ngaps <$> all_blines groups).
Proof.
  intros Hrun. apply estsummary_loop_totals in Hrun as (Hc & Ha & Hm & Hg).
  simpl in *. repeat split; lia.
Qed.

Lemma estsummary_totals_pooled_witness :
  let sizes : gmap string Z := {[ "est1" := 100; "est2" := 200 ]} in
  let groups := [("est1", [hit "est1" "chr1" 40 1 1 40 40 1 0;
                           hit "est1" "chr1" 100 51 61 110 50 0 2]);
                 ("est2", [hit "est2" "chr1" 60 1 1 60 60 6 0])] in
  let st := {| covered := 150; mismatches := 7; gaps := 2; alignlen := 150;
               queries := {[ "est1"; "est2" ]};
               valid_count := 0; mapped_count := 2 |} in
  for_each (estsummary_hit estsummary_defaults sizes) groups est_state0 world0
    = (world0, Ok st) /\
  alignlen st = sumZ (hitlen <$> all_blines groups).
Proof.
  intros sizes groups st.
  assert (Hrun : for_each (estsummary_hit estsummary_defaults sizes) groups
                   est_state0 world0 = (world0, Ok st))
    by (vm_compute; reflexivity).
  split; [exact Hrun|].
  exact (proj1 (proj2 (estsummary_totals_pooled _ _ _ _ _ _ Hrun))).
Defined.

(** ** Queries seen and groups counted *)

Lemma estsummary_loop_queries opts sizes groups st w w' st' :
  for_each (estsummary_hit opts sizes) groups st w = (w', Ok st') ->
  queries st' = list_to_set groups.*1 ∪ queries st.
Proof.
  revert st w. induction groups as [|[q blines] groups IH]; intros st w Hrun;
    simpl in Hrun.
  - unfold ret in Hrun. injection Hrun as _ <-. set_solver.
  - apply bind_Ok in Hrun as (w1 & st1 & Hhit & Hrest).
    apply IH in Hrest. rewrite Hrest.
    apply estsummary_hit_inv in Hhit as (size & _ & _ & _ & _ & ->).
    simpl. set_solver.
Qed.

(** X2: [mapped_count] counts the groups yielded, [queries] the distinct
    query ids: the set is never larger than the count, they agree when no
    query id is yielded twice, and a query id yielded twice is counted
    twice. *)
Theorem mapped_count_counts_groups
    (opts : options) (sizes : gmap string Z)
    (groups : list (string * list BlastLine)) (w w' : world) (st : est_state) :
  for_each (estsummary_hit opts sizes) groups est_state0 w = (w', Ok st) ->
  mapped_count st = Z.of_nat (length groups) /\
  queries st = list_to_set groups.*1 /\
  Z.of_nat (size (queries st)) <= mapped_count st /\
  (Z.of_nat (size (queries st)) = mapped_count st <-> NoDup groups.*1).
Proof.
  intros Hrun.
  pose proof (estsummary_loop_queries _ _ _ _ _ _ _ Hrun) as Hq.
  apply estsummary_loop_counts in Hrun as (Hm & _ & _). simpl in Hm, Hq.
  assert (Hq' : queries st = list_to_set groups.*1) by (rewrite Hq; set_solver).
  split; [lia|]. split; [exact Hq'|].
  rewrite Hq', Hm.
  pose proof (size_list_to_set_le groups.*1) as Hle.
  rewrite length_fmap in Hle.
  split; [lia|]. split.
  - intros Heq. apply size_list_to_set_NoDup.
    rewrite length_fmap. lia.
  - intros Hnd. rewrite (size_list_to_set (C := gset string) _ Hnd), length_fmap. lia.
Qed.

Lemma mapped_count_counts_groups_witness :
  let sizes : gmap string Z := {[ "est1" := 100 ]} in
  let groups := [("est1", [hit "est1" "chr1" 40 1 1 40 40 1 0]);
                 ("est1", [hit "est1" "chr2" 100 51 61 110 50 0 2])] in
  let st := {| covered := 90; mismatches := 1; gaps := 2; alignlen := 90;
               queries := {[ "est1" ]};
               valid_count := 0; mapped_count := 2 |} in
  for_each (estsummary_hit estsummary_defaults sizes) groups est_state0 world0
    = (world0, Ok st) /\
  mapped_count st = 2 /\ size (queries st) = 1%nat /\
  Z.of_nat (size (queries st)) <= mapped_count st.
Proof.
  intros sizes groups st.
  assert (Hrun : for_each (estsummary_hit estsummary_defaults sizes) groups
                   est_state0 world0 = (world0, Ok st))
    by (vm_compute; reflexivity).
  destruct (mapped_count_counts_groups _ _ _ _ _ _ Hrun) as (Hm & _ & Hle & _).
  split; [exact Hrun|]. split; [exact Hm|]. split; [|exact Hle].
  vm_compute. reflexivity.
Defined.

(** ** The pooled size of the mapped queries *)

Lemma sum_sizes_run sizes qs acc w :
  Forall (fun q => is_Some (sizes !! q)) qs ->
  for_each (fun acc x => do v <- getitem sizes x; ret (acc + v)) qs acc w
  = (w, Ok (acc + sumZ ((fun q => default 0 (sizes !! q)) <$> qs))).
Proof.
  intros Hall. revert acc.
  induction Hall as [|q qs [v Hv] _ IH]; intros acc; simpl.
  - unfold ret, sumZ. simpl. now rewrite Z.add_0_r.
  - unfold bind at 1. unfold bind at 1.
    rewrite (getitem_Some _ _ _ _ Hv). unfold ret at 1.
    rewrite IH, Hv. unfold sumZ. simpl. now rewrite Z.add_assoc.
Qed.

Lemma estsummary_loop_sized opts sizes groups st w w' st' :
  for_each (estsummary_hit opts sizes) groups st w = (w', Ok st') ->
  Forall (fun q => exists size, sizes !! q = Some size /\ size <> 0) groups.*1.
Proof.
  revert st w. induction groups as [|[q blines] groups IH]; intros st w Hrun;
    simpl in Hrun; [constructor|].
  apply bind_Ok in Hrun as (w1 & st1 & Hhit & Hrest).
  apply estsummary_hit_inv in Hhit as (size & _ & Hsize & Hnz & _).
  simpl. constructor; eauto.
Qed.

(** X3: once the loop of [estsummary] has completed, the sum
    [sum(sizes[x] for x in queries)] of the report cannot fail on a lookup:
    every query of the set has been looked up by the loop, with a size that is
    not zero. *)
Theorem pooled_size_lookup_cannot_fail
    (opts : options) (sizes : gmap string Z)
    (groups : list (string * list BlastLine)) (w w' w2 : world) (st : est_state) :
  for_each (estsummary_hit opts sizes) groups est_state0 w = (w', Ok st) ->
  sum_sizes sizes (elements (queries st)) w2
    = (w2, Ok (pooled_size sizes (queries st))) /\
  (forall q, q ∈ queries st -> exists size, sizes !! q = Some size /\ size <> 0).
Proof.
  intros Hrun.
  pose proof (estsummary_loop_queries _ _ _ _ _ _ _ Hrun) as Hq.
  pose proof (estsummary_loop_sized _ _ _ _ _ _ _ Hrun) as Hsized.
  assert (Hin : forall q, q ∈ queries st ->
                  exists size, sizes !! q = Some size /\ size <> 0).
  { intros q Hq'. rewrite Hq in Hq'. simpl in Hq'.
    rewrite Forall_forall in Hsized. apply Hsized. set_solver. }
  split; [|exact Hin].
  unfold sum_sizes, pooled_size. rewrite sum_sizes_run; [now rewrite Z.add_0_l|].
  apply Forall_forall. intros q Hq'. apply elem_of_elements in Hq'.
  destruct (Hin q Hq') as (size & Hsize & _). eauto.
Qed.

Lemma pooled_size_lookup_cannot_fail_witness :
  let sizes : gmap string Z := {[ "est1" := 100; "est2" := 200; "est3" := 50 ]} in
  let groups := [("est1", [hit "est1" "chr1" 40 1 1 40 40 1 0]);
                 ("est2", [hit "est2" "chr1" 60 1 1 60 60 6 0])] in
  sum_sizes sizes (elements ({[ "est1"; "est2" ]} : gset string)) world0
    = (world0, Ok 300).
Proof.
  intros sizes groups.
  assert (Hrun : for_each (estsummary_hit estsummary_defaults sizes) groups
                   est_state0 world0
                 = (world0,
                    Ok {| covered := 100; mismatches := 7; gaps := 0; alignlen := 100;
                          queries := {[ "est1"; "est2" ]};
                          valid_count := 0; mapped_count := 2 |}))
    by (vm_compute; reflexivity).
  destruct (pooled_size_lookup_cannot_fail _ _ _ _ _ world0 _ Hrun) as [Hsum _].
  simpl queries in Hsum. rewrite Hsum. vm_compute. reflexivity.
Defined.

(** ** The report *)

Lemma estsummary_report_run opts sizes st w :
  len_map sizes <> 0 -> alignlen st <> 0 ->
  (forall q, q ∈ queries st -> is_Some (sizes !! q)) ->
  pooled_size sizes (queries st) <> 0 ->
  estsummary_report opts sizes (len_map sizes) st w
  = ({| fs := fs w; trace := trace w ++ (EvStderr <$> est_report_lines opts sizes st) |},
     Ok tt).
Proof.
  intros Htotal Hlen Hin Hpool.
  assert (Hsum : forall w2, sum_sizes sizes (elements (queries st)) w2
                            = (w2, Ok (pooled_size sizes (queries st)))).
  { intros w2. unfold sum_sizes, pooled_size.
    rewrite sum_sizes_run; [now rewrite Z.add_0_l|].
    apply Forall_forall. intros q Hq. apply elem_of_elements in Hq. auto. }
  unfold estsummary_report, bind, print_stderr, emit.
  rewrite !fdiv_nonzero by assumption. rewrite Hsum.
  rewrite fdiv_nonzero by assumption.
  cbn [fs trace]. unfold est_report_lines. rewrite <- !app_assoc. reflexivity.
Qed.

(** The report after a loop without a group. *)
Lemma estsummary_report_no_group opts sizes w :
  estsummary_report opts sizes (len_map sizes) est_state0 w
  = ({| fs := fs w;
        trace := trace w
          ++ [EvStderr (LCutoff (ident opts) (cov opts)); EvStderr (LIdentity 0 0 0)]
          ++ (if len_map sizes =? 0 then []
              else [EvStderr (LTotalMapped 0
                      (float_of_int 0 * 100 / float_of_int (len_map sizes))%Q
                      (len_map sizes));
                    EvStderr (LTotalValid 0
                      (float_of_int 0 * 100 / float_of_int (len_map sizes))%Q
                      (len_map sizes))]) |},
     Raise ZeroDivisionError).
Proof.
  unfold estsummary_report, bind, print_stderr, emit. cbn [fs trace].
  destruct (len_map sizes =? 0) eqn:E.
  - apply Z.eqb_eq in E. rewrite fdiv_by_zero by exact E.
    rewrite <- !app_assoc. reflexivity.
  - apply Z.eqb_neq in E. rewrite !fdiv_nonzero by exact E.
    cbn [est_state0 mapped_count valid_count mismatches gaps alignlen].
    rewrite fdiv_by_zero by reflexivity. cbn [fs trace].
    rewrite <- !app_assoc. reflexivity.
Qed.

Section EstRuns.

Variable parse_args : forall O : Type, O -> list string -> O * list string.
Variable BlastSlow_iter_hits : list BlastLine -> list (string * list BlastLine).

(** The run of [estsummary] on two arguments and two readable files. *)
Lemma estsummary_run args opts blastfile fastafile files sizes lines :
  parse_args options estsummary_defaults args = (opts, [blastfile; fastafile]) ->
  files !! fastafile = Some (SizesFile sizes) ->
  files !! blastfile = Some (BlastFile lines) ->
  estsummary parse_args BlastSlow_iter_hits args {| fs := files; trace := [] |}
  = (do st <- for_each (estsummary_hit opts sizes) (BlastSlow_iter_hits lines)
                       est_state0;
     estsummary_report opts sizes (len_map sizes) st)
      {| fs := files; trace := [EvOpen fastafile; EvOpen blastfile] |}.
Proof.
  intros Hparse Hf Hb. rewrite (estsummary_two_args _ _ _ _ _ _ _ Hparse).
  unfold bind at 1. rewrite Sizes_run. cbn [fs trace]. rewrite Hf.
  unfold bind at 1. unfold BlastSlow. rewrite Blast_run. cbn [fs trace]. rewrite Hb.
  reflexivity.
Qed.

(** X4: on an alignment that yields no hit group, [estsummary] never gets to
    the end of its report, whatever the size table: it prints the cutoff and
    identity lines, then fails with a division by zero, on the mapped
    percentage if the size table is empty, and otherwise on the overall
    identity, after the two lines of counts. *)
Theorem estsummary_no_group_fails
    (args : list string) (opts : options) (blastfile fastafile : string)
    (files : gmap string file) (sizes : gmap string Z) (lines : list BlastLine) :
  parse_args options estsummary_defaults args = (opts, [blastfile; fastafile]) ->
  files !! fastafile = Some (SizesFile sizes) ->
  files !! blastfile = Some (BlastFile lines) ->
  BlastSlow_iter_hits lines = [] ->
  let run := estsummary parse_args BlastSlow_iter_hits args
               {| fs := files; trace := [] |} in
  run.2 = Raise ZeroDivisionError /\
  stderr_lines (trace run.1)
  = [LCutoff (ident opts) (cov opts); LIdentity 0 0 0]
    ++ (if len_map sizes =? 0 then []
        else [LTotalMapped 0 (float_of_int 0 * 100 / float_of_int (len_map sizes))%Q
                (len_map sizes);
              LTotalValid 0 (float_of_int 0 * 100 / float_of_int (len_map sizes))%Q
                (len_map sizes)]).
Proof.
  intros Hparse Hf Hb Hnone run. subst run.
  rewrite (estsummary_run _ _ _ _ _ _ _ Hparse Hf Hb), Hnone.
  cbn [for_each]. unfold bind, ret.
  rewrite estsummary_report_no_group. cbn [fst snd fs trace].
  split; [reflexivity|].
  destruct (len_map sizes =? 0); reflexivity.
Qed.

End EstRuns.

Lemma estsummary_no_group_fails_witness :
  let files : gmap string file :=
    {[ "est.fasta" := SizesFile {[ "est1" := 100 ]};
       "est.blast" := BlastFile [] ]} in
  let run := estsummary no_options one_per_line ["est.blast"; "est.fasta"]
               {| fs := files; trace := [] |} in
  run.2 = Raise ZeroDivisionError /\
  length (stderr_lines (trace run.1)) = 4%nat.
Proof.
  intros files run.
  destruct (estsummary_no_group_fails no_options one_per_line
              ["est.blast"; "est.fasta"] estsummary_defaults "est.blast" "est.fasta"
              files {[ "est1" := 100 ]} [] eq_refl) as [Hfail Hlines];
    try (vm_compute; reflexivity).
  split; [exact Hfail|]. fold run in Hlines. rewrite Hlines. reflexivity.
Defined.

(** ** Runs that complete *)

Lemma sumZ_pos l : Forall (fun z => 0 < z) l -> l <> [] -> 0 < sumZ l.
Proof.
  intros Hall Hne. destruct Hall as [|z l Hz Hl]; [contradiction|].
  unfold sumZ. simpl. clear Hne.
  enough (0 <= foldr Z.add 0 l) by lia.
  induction Hl as [|y l Hy _ IH]; simpl; lia.
Qed.

Lemma all_blines_hitlen_pos groups :
  Forall (fun g => 0 < sumZ (hitlen <$> g.2)) groups -> groups <> [] ->
  0 < sumZ (hitlen <$> all_blines groups).
Proof.
  intros Hall Hne. unfold all_blines.
  destruct Hall as [|g groups Hg Hrest]; [contradiction|]. clear Hne.
  rewrite fmap_cons. cbn [concat]. rewrite fmap_app, sumZ_app.
  enough (0 <= sumZ (hitlen <$> concat (snd <$> groups))) by lia.
  induction Hrest as [|g' groups Hg' _ IH].
  - unfold sumZ. simpl. lia.
  - rewrite fmap_cons. cbn [concat]. rewrite fmap_app, sumZ_app. lia.
Qed.

Lemma estsummary_loop_completes opts sizes groups :
  Forall (fun g => 0 < sumZ (hitlen <$> g.2) /\
                   exists size, sizes !! g.1 = Some size /\ 0 < size) groups ->
  forall st w, exists st' w',
    for_each (estsummary_hit opts sizes) groups st w = (w', Ok st').
Proof.
  induction 1 as [|[q blines] groups (Hlen & size & Hsize & Hpos) _ IH];
    intros st w; cbn [for_each fst snd] in *.
  - unfold ret. eauto.
  - unfold bind at 1.
    destruct (sum_blines_sums blines) as (_ & Ha & _).
    rewrite (estsummary_hit_success opts sizes st q blines size) by (auto; lia).
    apply IH.
Qed.

Section EstCompletes.

Variable parse_args : forall O : Type, O -> list string -> O * list string.
Variable BlastSlow_iter_hits : list BlastLine -> list (string * list BlastLine).

(** X5: [estsummary] goes through, and prints its seven summary lines, as
    soon as the alignment yields at least one group, every group has a
    positive total hit length, and every query yielded has a positive size in
    the table.  The lines are those of the final state of the loop. *)
Theorem estsummary_completes
    (args : list string) (opts : options) (blastfile fastafile : string)
    (files : gmap string file) (sizes : gmap string Z) (lines : list BlastLine) :
  parse_args options estsummary_defaults args = (opts, [blastfile; fastafile]) ->
  files !! fastafile = Some (SizesFile sizes) ->
  files !! blastfile = Some (BlastFile lines) ->
  BlastSlow_iter_hits lines <> [] ->
  Forall (fun g => 0 < sumZ (hitlen <$> g.2) /\
                   exists size, sizes !! g.1 = Some size /\ 0 < size)
         (BlastSlow_iter_hits lines) ->
  let run := estsummary parse_args BlastSlow_iter_hits args
               {| fs := files; trace := [] |} in
  exists st w',
    for_each (estsummary_hit opts sizes) (BlastSlow_iter_hits lines) est_state0
      {| fs := files; trace := [EvOpen fastafile; EvOpen blastfile] |} = (w', Ok st) /\
    run.2 = Ok tt /\ fs run.1 = files /\
    stderr_lines (trace run.1)
      = stderr_lines (trace w') ++ est_report_lines opts sizes st.
Proof.
  intros Hparse Hf Hb Hne Hall run. subst run.
  destruct (estsummary_loop_completes opts sizes _ Hall est_state0
              {| fs := files; trace := [EvOpen fastafile; EvOpen blastfile] |})
    as (st & w' & Hloop).
  exists st, w'. split; [exact Hloop|].
  rewrite (estsummary_run _ _ _ _ _ _ _ _ _ Hparse Hf Hb).
  unfold bind. rewrite Hloop.
  (* the report cannot fail *)
  pose proof (estsummary_loop_totals _ _ _ _ _ _ _ Hloop) as (_ & Ha & _).
  pose proof (estsummary_loop_queries _ _ _ _ _ _ _ Hloop) as Hq.
  cbn [alignlen queries est_state0] in Ha, Hq.
  assert (Hq' : queries st = list_to_set (BlastSlow_iter_hits lines).*1)
    by (rewrite Hq; set_solver).
  assert (Hsizes : forall q, q ∈ queries st ->
                     exists size, sizes !! q = Some size /\ 0 < size).
  { intros q Hin. rewrite Hq' in Hin. apply elem_of_list_to_set in Hin.
    apply list_elem_of_fmap in Hin as (g & -> & Hg).
    rewrite Forall_forall in Hall. now destruct (Hall g Hg). }
  assert (Hfs : fs w' = files).
  { clear -Hloop.
    destruct (prints_only_run
                (for_each (estsummary_hit opts sizes) (BlastSlow_iter_hits lines)
                   est_state0)
                {| fs := files; trace := [EvOpen fastafile; EvOpen blastfile] |})
      as (evs & r & Hrun & _).
    - apply prints_only_for_each. intros st0 [q blines]. unfold estsummary_hit.
      unfold compute_identity, compute_coverage. quiet.
    - rewrite Hrun in Hloop. injection Hloop as <- _. reflexivity. }
  rewrite estsummary_report_run.
  - cbn [fst snd fs trace]. split; [reflexivity|]. split; [exact Hfs|].
    unfold stderr_lines. rewrite omap_app. reflexivity.
  - destruct (BlastSlow_iter_hits lines) as [|g groups] eqn:E; [contradiction|].
    apply Forall_cons in Hall as [(_ & size & Hsize & _) _].
    unfold len_map. intros Hz.
    assert (Hempty : sizes = ∅) by (apply map_size_empty_iff; lia).
    rewrite Hempty, lookup_empty in Hsize. discriminate.
  - rewrite Ha, Z.add_0_l.
    enough (0 < sumZ (hitlen <$> all_blines (BlastSlow_iter_hits lines))) by lia.
    apply all_blines_hitlen_pos; [|exact Hne].
    eapply Forall_impl; [exact Hall|]. now intros g [Hg _].
  - intros q Hin. destruct (Hsizes q Hin) as (size & -> & _). eauto.
  - enough (0 < pooled_size sizes (queries st)) by lia.
    unfold pooled_size. apply sumZ_pos.
    + apply Forall_fmap, Forall_forall. intros q Hin.
      apply elem_of_elements in Hin.
      destruct (Hsizes q Hin) as (size & Hs & Hpos).
      simpl. rewrite Hs. exact Hpos.
    + intros Hnil. apply fmap_nil_inv in Hnil. apply elements_empty_inv in Hnil.
      destruct (BlastSlow_iter_hits lines) as [|g groups] eqn:E; [contradiction|].
      rewrite Hq' in Hnil. set_solver.
Qed.

End EstCompletes.

Lemma estsummary_completes_witness :
  let lines := [hit "est1" "chr1" 100 1 1 100 100 1 0;
                hit "est2" "chr1" 60 1 1 60 60 6 0] in
  let files : gmap string file :=
    {[ "est.fasta" := SizesFile {[ "est1" := 100; "est2" := 200; "est3" := 50 ]};
       "est.blast" := BlastFile lines ]} in
  let run := estsummary no_options one_per_line ["est.blast"; "est.fasta"]
               {| fs := files; trace := [] |} in
  run.2 = Ok tt /\ fs run.1 = files.
Proof.
  intros lines files run.
  destruct (estsummary_completes no_options one_per_line
              ["est.blast"; "est.fasta"] estsummary_defaults "est.blast" "est.fasta"
              files {[ "est1" := 100; "est2" := 200; "est3" := 50 ]} lines eq_refl)
    as (st & w' & _ & Hok & Hfs & _).
  - vm_compute; reflexivity.
  - vm_compute; reflexivity.
  - discriminate.
  - repeat constructor; try (eexists; split; [vm_compute; reflexivity|reflexivity]).
  - split; [exact Hok | exact Hfs].
Defined.

(** ** The [--list] lines *)

Lemma estsummary_loop_trace opts sizes groups st w w' st' :
  for_each (estsummary_hit opts sizes) groups st w = (w', Ok st') ->
  exists evs,
    w' = {| fs := fs w; trace := trace w ++ evs |} /\
    listed_queries evs = (if list_ opts then groups.*1 else []) /\
    length evs = length (listed_queries evs) /\
    stderr_lines evs = [].
Proof.
  revert st w. induction groups as [|[q blines] groups IH]; intros st w Hrun;
    cbn [for_each] in Hrun.
  - unfold ret in Hrun. injection Hrun as <- _. exists [].
    rewrite app_nil_r, world_eta. destruct (list_ opts); auto.
  - apply bind_Ok in Hrun as (w1 & st1 & Hhit & Hrest).
    apply estsummary_hit_inv in Hhit as (size & _ & _ & _ & -> & _).
    apply IH in Hrest as (evs & -> & Hq & Hlen & Herr). cbn [fs trace].
    exists (est_listed opts q blines size ++ evs).
    rewrite app_assoc. split; [reflexivity|].
    unfold listed_queries, stderr_lines in *.
    rewrite !omap_app, !length_app, Hlen, Herr, Hq.
    unfold est_listed. destruct (list_ opts); simpl; repeat split; reflexivity.
Qed.

(** X6: with [--list], a loop that completes has printed one line per group
    on standard output, in the order of the groups and each with the query id
    of its group; without it, nothing.  Nothing goes to the error stream
    before the loop is over. *)
Theorem list_prints_one_line_per_group
    (opts : options) (sizes : gmap string Z)
    (groups : list (string * list BlastLine)) (w w' : world) (st : est_state) :
  for_each (estsummary_hit opts sizes) groups est_state0 w = (w', Ok st) ->
  exists evs,
    w' = {| fs := fs w; trace := trace w ++ evs |} /\
    listed_queries evs = (if list_ opts then groups.*1 else []) /\
    length evs = length (listed_queries evs) /\
    stderr_lines evs = [].
Proof. apply estsummary_loop_trace. Qed.

Lemma list_prints_one_line_per_group_witness :
  let sizes : gmap string Z := {[ "est1" := 100; "est2" := 200 ]} in
  let groups := [("est2", [hit "est2" "chr1" 60 1 1 60 60 6 0]);
                 ("est1", [hit "est1" "chr1" 100 1 1 100 100 1 0])] in
  let opts := {| ident := 95; cov := 90; list_ := true |} in
  exists evs,
    trace (for_each (estsummary_hit opts sizes) groups est_state0 world0).1 = evs /\
    listed_queries evs = ["est2"; "est1"] /\ length evs = 2%nat.
Proof.
  intros sizes groups opts.
  destruct (for_each (estsummary_hit opts sizes) groups est_state0 world0)
    as [w' [st|e]] eqn:Hrun; [|vm_compute in Hrun; discriminate].
  destruct (list_prints_one_line_per_group _ _ _ _ _ _ Hrun)
    as (evs & -> & Hq & Hlen & _).
  exists evs. split; [reflexivity|]. split; [exact Hq|].
  rewrite Hlen, Hq. reflexivity.
Defined.

(** ** An unknown query *)

Section EstFailures.

Variable parse_args : forall O : Type, O -> list string -> O * list string.
Variable BlastSlow_iter_hits : list BlastLine -> list (string * list BlastLine).

(** X7: [estsummary] stops at the first group whose query id is not in the
    size table (the group having a total hit length that is not zero): the run
    ends with a [KeyError] that names the query, the groups after it are not
    looked at, and no summary line has been printed. *)
Theorem estsummary_unknown_query
    (args : list string) (opts : options) (blastfile fastafile : string)
    (files : gmap string file) (sizes : gmap string Z) (lines : list BlastLine)
    (pre post : list (string * list BlastLine)) (q : string)
    (blines : list BlastLine) (st1 : est_state) (w1 : world) :
  parse_args options estsummary_defaults args = (opts, [blastfile; fastafile]) ->
  files !! fastafile = Some (SizesFile sizes) ->
  files !! blastfile = Some (BlastFile lines) ->
  BlastSlow_iter_hits lines = pre ++ (q, blines) :: post ->
  for_each (estsummary_hit opts sizes) pre est_state0
    {| fs := files; trace := [EvOpen fastafile; EvOpen blastfile] |} = (w1, Ok st1) ->
  sumZ (hitlen <$> blines) <> 0 ->
  sizes !! q = None ->
  estsummary parse_args BlastSlow_iter_hits args {| fs := files; trace := [] |}
    = (w1, Raise (KeyError q)) /\
  stderr_lines (trace w1) = [].
Proof.
  intros Hparse Hf Hb Hgroups Hpre Hlen Hq. split.
  - rewrite (estsummary_run _ _ _ _ _ _ _ _ _ Hparse Hf Hb), Hgroups.
    unfold bind at 1. rewrite for_each_app. unfold bind at 1. rewrite Hpre.
    cbn [for_each]. unfold bind at 1.
    unfold estsummary_hit. unfold bind at 1.
    destruct (sum_blines_sums blines) as (_ & Ha & _).
    rewrite compute_identity_nonzero by (rewrite Ha; exact Hlen).
    unfold bind at 1. unfold compute_coverage. unfold bind at 1.
    rewrite (getitem_None _ _ _ Hq). reflexivity.
  - apply estsummary_loop_trace in Hpre as (evs & -> & _ & _ & Herr).
    cbn [trace]. unfold stderr_lines in *. rewrite omap_app, Herr. reflexivity.
Qed.

End EstFailures.

Lemma estsummary_unknown_query_witness :
  let lines := [hit "est1" "chr1" 100 1 1 100 100 1 0;
                hit "est9" "chr1" 60 1 1 60 60 6 0;
                hit "est2" "chr1" 60 1 1 60 60 6 0] in
  let files : gmap string file :=
    {[ "est.fasta" := SizesFile {[ "est1" := 100; "est2" := 200 ]};
       "est.blast" := BlastFile lines ]} in
  estsummary no_options one_per_line ["est.blast"; "est.fasta"]
    {| fs := files; trace := [] |}
  = ({| fs := files; trace := [EvOpen "est.fasta"; EvOpen "est.blast"] |},
     Raise (KeyError "est9")).
Proof.
  intros lines files.
  refine (proj1 (estsummary_unknown_query no_options one_per_line
            ["est.blast"; "est.fasta"] estsummary_defaults "est.blast" "est.fasta"
            files {[ "est1" := 100; "est2" := 200 ]} lines
            [("est1", [hit "est1" "chr1" 100 1 1 100 100 1 0])]
            [("est2", [hit "est2" "chr1" 60 1 1 60 60 6 0])]
            "est9" [hit "est9" "chr1" 60 1 1 60 60 6 0]
            {| covered := 100; mismatches := 1; gaps := 0; alignlen := 100;
               queries := {[ "est1" ]}; valid_count := 1; mapped_count := 1 |}
            _ eq_refl _ _ eq_refl _ _ _));
    try (vm_compute; reflexivity).
  vm_compute. discriminate.
Defined.

(** ** What [estsummary] leaves alone *)

Lemma prints_only_estsummary_hit opts sizes st hit :
  prints_only (estsummary_hit opts sizes st hit).
Proof.
  destruct hit as [q blines].
  unfold estsummary_hit, compute_identity, compute_coverage. quiet.
Qed.

Lemma prints_only_sum_sizes sizes qs : prints_only (sum_sizes sizes qs).
Proof. unfold sum_sizes. quiet. Qed.

Lemma prints_only_estsummary_report opts sizes total st :
  prints_only (estsummary_report opts sizes total st).
Proof.
  unfold estsummary_report.
  pose proof prints_only_sum_sizes. quiet.
Qed.

Section EstQuiet.

Variable parse_args : forall O : Type, O -> list string -> O * list string.
Variable BlastSlow_iter_hits : list BlastLine -> list (string * list BlastLine).

(** X8: whatever the files hold, [estsummary] on two arguments writes no
    file, checks no path and calls no redundancy filter; it opens the size
    table, then, if that could be read, the alignment file, and nothing
    else. *)
Theorem estsummary_reads_only
    (args : list string) (opts : options) (blastfile fastafile : string) (w : world) :
  parse_args options estsummary_defaults args = (opts, [blastfile; fastafile]) ->
  exists evs r,
    estsummary parse_args BlastSlow_iter_hits args w
      = ({| fs := fs w; trace := trace w ++ evs |}, r) /\
    filters_invoked evs = [] /\ paths_checked evs = [] /\
    (files_opened evs = [fastafile] \/ files_opened evs = [fastafile; blastfile]).
Proof.
  intros Hparse. rewrite (estsummary_two_args _ _ _ _ _ _ _ Hparse).
  unfold bind at 1. rewrite Sizes_run.
  destruct (fs w !! fastafile) as [[sizes|l]|].
  2, 3: exists [EvOpen fastafile]; eexists; split; [reflexivity|]; simpl; auto.
  unfold bind at 1. unfold BlastSlow. rewrite Blast_run. cbn [fs trace].
  destruct (fs w !! blastfile) as [[m|lines]|].
  1, 3: exists [EvOpen fastafile; EvOpen blastfile]; eexists;
        rewrite <- app_assoc; split; [reflexivity|]; simpl; auto.
  destruct (prints_only_run
              (do st <- for_each (estsummary_hit opts sizes)
                                 (BlastSlow_iter_hits lines) est_state0;
               estsummary_report opts sizes (len_map sizes) st)
              {| fs := fs w;
                 trace := (trace w ++ [EvOpen fastafile]) ++ [EvOpen blastfile] |})
    as (evs & r & -> & Hfi & Hpc & Hop).
  { apply prints_only_bind.
    - apply prints_only_for_each. intros. apply prints_only_estsummary_hit.
    - intros. apply prints_only_estsummary_report. }
  exists ([EvOpen fastafile; EvOpen blastfile] ++ evs), r. cbn [fs trace].
  rewrite <- !app_assoc. split; [reflexivity|].
  rewrite filters_invoked_app, paths_checked_app, files_opened_app, Hfi, Hpc, Hop.
  simpl. auto.
Qed.

End EstQuiet.

Lemma estsummary_reads_only_witness :
  let files : gmap string file :=
    {[ "est.fasta" := SizesFile {[ "est1" := 100 ]};
       "est.blast" := BlastFile [hit "est1" "chr1" 100 1 1 100 100 1 0] ]} in
  fs (estsummary no_options one_per_line ["est.blast"; "est.fasta"]
        {| fs := files; trace := [] |}).1 = files.
Proof.
  intros files.
  destruct (estsummary_reads_only no_options one_per_line
              ["est.blast"; "est.fasta"] estsummary_defaults "est.blast" "est.fasta"
              {| fs := files; trace := [] |} eq_refl) as (evs & r & -> & _).
  reflexivity.
Defined.

(** ** Identity is at most 100 *)

Lemma Qdiv_nonneg (a b : Q) : (0 <= a)%Q -> (0 < b)%Q -> (0 <= a / b)%Q.
Proof.
  intros Ha Hb. apply Qle_shift_div_l; [exact Hb|]. now rewrite Qmult_0_l.
Qed.

Lemma sumZ_nonneg l : Forall (fun z => 0 <= z) l -> 0 <= sumZ l.
Proof. unfold sumZ. induction 1; simpl; lia. Qed.

(** X9: for a group whose records have no negative mismatch, gap or hit
    length count, the identity% computed by [estsummary] is at most 100; so,
    with an identity cutoff of 100 or more, no such query is ever counted as
    valid. *)
Theorem identity_at_most_100
    (opts : options) (sizes : gmap string Z) (st st' : est_state)
    (q : string) (blines : list BlastLine) (w w' : world) :
  Forall (fun b => 0 <= nmismatch b /\ 0 <= ngaps b /\ 0 <= hitlen b) blines ->
  estsummary_hit opts sizes st (q, blines) w = (w', Ok st') ->
  (exists this_identity,
     compute_identity (sum_blines blines) w = (w, Ok this_identity) /\
     (this_identity <= 100)%Q) /\
  (100 <= ident opts -> valid_count st' = valid_count st).
Proof.
  intros Hall Hrun.
  apply estsummary_hit_Ok in Hrun as (i & c & Hi & _ & _ & _ & Hv).
  pose proof (compute_identity_Ok _ _ _ _ Hi) as (_ & Hnz & Hival).
  destruct (sum_blines_sums blines) as (_ & Ha & Hm & Hg).
  assert (Hpos : 0 < this_alignlen (sum_blines blines)).
  { enough (0 <= this_alignlen (sum_blines blines)) by lia.
    rewrite Ha. apply sumZ_nonneg, Forall_fmap.
    eapply Forall_impl; [exact Hall|]. simpl. intros b; lia. }
  assert (Herr : 0 <= this_mismatches (sum_blines blines) + this_gaps (sum_blines blines)).
  { rewrite Hm, Hg.
    assert (0 <= sumZ (nmismatch <$> blines)).
    { apply sumZ_nonneg, Forall_fmap.
      eapply Forall_impl; [exact Hall|]. simpl. intros b; lia. }
    assert (0 <= sumZ (ngaps <$> blines)).
    { apply sumZ_nonneg, Forall_fmap.
      eapply Forall_impl; [exact Hall|]. simpl. intros b; lia. }
    lia. }
  assert (Hle : (i <= 100)%Q).
  { rewrite Hival.
    set (x := (float_of_int _ * 100 / float_of_int _)%Q).
    assert (Hx : (0 <= x)%Q).
    { subst x. apply Qdiv_nonneg.
      - unfold float_of_int. apply Qmult_le_0_compat; [|discriminate].
        change 0%Q with (inject_Z 0). now rewrite <- Zle_Qle.
      - unfold float_of_int. change 0%Q with (inject_Z 0). now rewrite <- Zlt_Qlt. }
    apply (Qplus_le_l _ _ x). ring_simplify.
    rewrite <- (Qplus_0_l 100) at 1. rewrite (Qplus_comm x 100).
    apply Qplus_le_l with (z := (-(100))%Q). ring_simplify. exact Hx. }
  split; [exists i; auto|].
  intros Hident. rewrite Hv.
  destruct (is_valid opts i c) eqn:E; [|reflexivity].
  apply is_valid_spec in E as [Hlt _].
  exfalso. apply (Qlt_irrefl i).
  eapply Qle_lt_trans; [exact Hle|].
  eapply Qle_lt_trans; [|exact Hlt].
  change 100%Q with (inject_Z 100). now rewrite <- Zle_Qle.
Qed.

Lemma identity_at_most_100_witness :
  let sizes : gmap string Z := {[ "est1" := 100 ]} in
  let blines := [hit "est1" "chr1" 100 1 1 100 100 0 0] in
  let opts := {| ident := 100; cov := 90; list_ := false |} in
  let st' := {| covered := 100; mismatches := 0; gaps := 0; alignlen := 100;
                queries := {[ "est1" ]}; valid_count := 0; mapped_count := 1 |} in
  estsummary_hit opts sizes est_state0 ("est1", blines) world0 = (world0, Ok st') /\
  valid_count st' = valid_count est_state0.
Proof.
  intros sizes blines opts st'.
  assert (Hrun : estsummary_hit opts sizes est_state0 ("est1", blines) world0
                 = (world0, Ok st'))
    by (vm_compute; reflexivity).
  split; [exact Hrun|].
  refine (proj2 (identity_at_most_100 opts sizes est_state0 st' "est1" blines
                   world0 world0 _ Hrun) _).
  - repeat constructor; discriminate.
  - simpl. lia.
Defined.

(** * Further properties of [rnaseqbench] *)

(** ** The bases per subject *)

Lemma subjects_cons x hits : subjects (x :: hits) = {[ subject x ]} ∪ subjects hits.
Proof. reflexivity. Qed.

Lemma subject_bases_cons s x hits :
  subject_bases s (x :: hits)
  = (if decide (subject x = s) then subject_width x else 0) + subject_bases s hits.
Proof.
  unfold subject_bases. rewrite filter_cons.
  destruct (decide (subject x = s)); rewrite ?fmap_cons; unfold sumZ;
    cbn [foldr]; lia.
Qed.

Lemma subject_bases_absent s hits : s ∉ subjects hits -> subject_bases s hits = 0.
Proof.
  induction hits as [|x hits IH]; intros Hnot; [reflexivity|].
  rewrite subject_bases_cons. rewrite subjects_cons in Hnot.
  rewrite decide_False by set_solver. rewrite IH by set_solver. lia.
Qed.

Lemma fold_add_bps_lookup hits (m : gmap string Z) s :
  fold_left add_bps hits m !! s
  = if decide (s ∈ subjects hits)
    then Some (default 0 (m !! s) + subject_bases s hits)
    else m !! s.
Proof.
  revert m. induction hits as [|x hits IH]; intros m.
  - simpl. rewrite decide_False by (unfold subjects; set_solver). reflexivity.
  - cbn [fold_left]. rewrite IH, subjects_cons, subject_bases_cons.
    unfold add_bps at 1 2. unfold subject_width.
    destruct (decide (subject x = s)) as [->|Hne].
    + rewrite lookup_insert_eq. cbn [default].
      rewrite (decide_True (P := s ∈ {[ s ]} ∪ subjects hits)) by set_solver.
      destruct (decide (s ∈ subjects hits)) as [Hin|Hnot].
      * f_equal. unfold id. lia.
      * rewrite (subject_bases_absent _ _ Hnot). f_equal. unfold id. lia.
    + rewrite lookup_insert_ne by exact Hne.
      destruct (decide (s ∈ subjects hits)) as [Hin|Hnot].
      * rewrite decide_True by set_solver. f_equal.
      * rewrite decide_False by set_solver. reflexivity.
Qed.

Lemma sum_bps_lookup (hits : list BlastLine) (s : string) :
  sum_bps hits !! s
  = if decide (s ∈ subjects hits) then Some (subject_bases s hits) else None.
Proof.
  unfold sum_bps. rewrite fold_add_bps_lookup, lookup_empty.
  destruct (decide (s ∈ subjects hits)); reflexivity.
Qed.

(** X10: the dict [bps] built from the records of a group (or of a whole
    file) has exactly the subjects of the records as keys, and holds for each
    the sum of [abs(sstop - sstart) + 1] over the records of that subject. *)
Theorem bps_sums_per_subject (hits : list BlastLine) (s : string) :
  sum_bps hits !! s
  = if decide (s ∈ subjects hits) then Some (subject_bases s hits) else None.
Proof. apply sum_bps_lookup. Qed.

(** ** The order of the records *)

Lemma sumZ_Permutation l1 l2 : l1 ≡ₚ l2 -> sumZ l1 = sumZ l2.
Proof. unfold sumZ. induction 1; simpl; lia. Qed.

Lemma sum_bps_Permutation hits1 hits2 :
  hits1 ≡ₚ hits2 -> sum_bps hits1 = sum_bps hits2.
Proof.
  intros Hperm. apply map_eq. intros s. rewrite !sum_bps_lookup.
  assert (Hs : subjects hits1 = subjects hits2).
  { unfold subjects. apply set_eq. intros y.
    rewrite !elem_of_list_to_set. now rewrite Hperm. }
  assert (Hb : subject_bases s hits1 = subject_bases s hits2).
  { unfold subject_bases. apply sumZ_Permutation. now rewrite Hperm. }
  rewrite Hs, Hb. reflexivity.
Qed.

(** X11: the records of a contig can come in any order: two groups with the
    same records give the same dict; one goes through exactly when the other
    does, and then with the same bands and the same chimera count.  (Which
    exception a group that fails raises first is left out: it depends on the
    order of [bps.items()].)  A record counts the same read from [sstart] to
    [sstop] or the other way round. *)
Theorem rnaseqbench_hit_order_independent
    (sizes : gmap string Z) (st : ctg_state) (ctg : string)
    (hits1 hits2 : list BlastLine) (w : world) :
  hits1 ≡ₚ hits2 ->
  sum_bps hits1 = sum_bps hits2 /\
  (completes (rnaseqbench_hit sizes st (ctg, hits1) w).2 <->
   completes (rnaseqbench_hit sizes st (ctg, hits2) w).2) /\
  (forall w' st',
     rnaseqbench_hit sizes st (ctg, hits1) w = (w', Ok st') ->
     rnaseqbench_hit sizes st (ctg, hits2) w = (w', Ok st')) /\
  (forall x : BlastLine,
     subject_width x
     = subject_width {| query := query x; subject := subject x;
                        qstart := qstart x; qstop := qstop x;
                        sstart := sstop x; sstop := sstart x;
                        hitlen := hitlen x; nmismatch := nmismatch x;
                        ngaps := ngaps x |}).
Proof.
  intros Hperm.
  pose proof (sum_bps_Permutation _ _ Hperm) as Heq.
  assert (Hrun : rnaseqbench_hit sizes st (ctg, hits1) w
                 = rnaseqbench_hit sizes st (ctg, hits2) w)
    by (unfold rnaseqbench_hit; now rewrite Heq).
  split; [exact Heq|]. split; [now rewrite Hrun|].
  split; [intros w' st' H1; now rewrite <- Hrun|].
  intros x. unfold subject_width. simpl. lia.
Qed.

Lemma rnaseqbench_hit_order_independent_witness :
  let a := hit "ctg1" "geneA" 1 100 1 100 100 0 0 in
  let b := hit "ctg1" "geneB" 101 150 50 1 50 0 0 in
  let sizes : gmap string Z := {[ "geneA" := 1000; "geneB" := 60 ]} in
  let st' := {| chimers := 1;
                goodctg := {| good80 := {[ "ctg1" ]}; good50 := {[ "ctg1" ]} |} |} in
  rnaseqbench_hit sizes ctg_state0 ("ctg1", [a; b]) world0 = (world0, Ok st') /\
  rnaseqbench_hit sizes ctg_state0 ("ctg1", [b; a]) world0 = (world0, Ok st').
Proof.
  intros a b sizes st'.
  assert (Hrun : rnaseqbench_hit sizes ctg_state0 ("ctg1", [a; b]) world0
                 = (world0, Ok st'))
    by (vm_compute; reflexivity).
  split; [exact Hrun|].
  destruct (rnaseqbench_hit_order_independent sizes ctg_state0 "ctg1"
              [a; b] [b; a] world0) as (_ & _ & Hsame & _).
  - apply perm_swap.
  - exact (Hsame _ _ Hrun).
Defined.

(** ** The bands, subject by subject *)

Section Classify.

Variable sizes : gmap string Z.
Variable name : string -> string.

Lemma classify_inv nm st vh len w w' st' :
  classify sizes nm st vh len w = (w', Ok st') ->
  w' = w /\
  exists rsize, sizes !! vh = Some rsize /\ rsize <> 0 /\
    let ratio := (float_of_int len * 100 / float_of_int rsize)%Q in
    good80 st' = (if Qgeb ratio 80 then {[ nm ]} ∪ good80 st else good80 st) /\
    good50 st' = (if Qgeb ratio 50 then {[ nm ]} ∪ good50 st else good50 st).
Proof.
  unfold classify. intros Hrun.
  apply bind_Ok in Hrun as (w1 & rsize & Hget & Hrun).
  apply getitem_Ok in Hget as [-> Hsize].
  apply bind_Ok in Hrun as (w2 & ratio & Hdiv & Hret).
  apply fdiv_Ok in Hdiv as (-> & -> & Hnz).
  unfold ret in Hret. injection Hret as <- <-.
  split; [reflexivity|]. exists rsize. split; [exact Hsize|]. split; [|auto].
  intros Hz. apply float_of_int_zero in Hz. congruence.
Qed.

Lemma classify_loop_inv items st w w' st' :
  for_each (classify_item sizes name) items st w = (w', Ok st') ->
  w' = w /\
  (forall vh len, (vh, len) ∈ items ->
     exists rsize, sizes !! vh = Some rsize /\ rsize <> 0) /\
  (forall x, x ∈ good80 st' <->
     x ∈ good80 st \/
     exists vh len rsize, (vh, len) ∈ items /\ sizes !! vh = Some rsize /\
       x = name vh /\ (80 <= float_of_int len * 100 / float_of_int rsize)%Q) /\
  (forall x, x ∈ good50 st' <->
     x ∈ good50 st \/
     exists vh len rsize, (vh, len) ∈ items /\ sizes !! vh = Some rsize /\
       x = name vh /\ (50 <= float_of_int len * 100 / float_of_int rsize)%Q).
Proof.
  revert st w. induction items as [|[vh len] items IH]; intros st w Hrun;
    cbn [for_each] in Hrun.
  - unfold ret in Hrun. injection Hrun as <- <-.
    split; [reflexivity|]. split; [intros ? ? Hin; inversion Hin|].
    split; intros x; split; auto; intros [H|(?&?&?&Hin&_)]; auto; inversion Hin.
  - apply bind_Ok in Hrun as (w1 & st1 & Hstep & Hrest).
    apply IH in Hrest as (-> & Hsized & H80 & H50).
    apply classify_inv in Hstep as (-> & rsize & Hsize & Hnz & Hg80 & Hg50).
    split; [reflexivity|]. split; [|split].
    + intros vh' len' Hin. apply elem_of_cons in Hin as [Heq|Hin]; [|eauto].
      injection Heq as -> ->. eauto.
    + intros x. rewrite H80, Hg80. split.
      * intros [Hx|(vh' & len' & r' & Hin & Hs & Hn & Hr)].
        -- destruct (Qgeb _ 80) eqn:E; [|auto].
           apply elem_of_union in Hx as [Hx|Hx]; [|auto].
           apply elem_of_singleton in Hx. right. exists vh, len, rsize.
           repeat split; auto; [left|now apply Qgeb_spec].
        -- right. exists vh', len', r'. repeat split; auto. now right.
      * intros [Hx|(vh' & len' & r' & Hin & Hs & Hn & Hr)].
        -- left. destruct (Qgeb _ 80); set_solver.
        -- apply elem_of_cons in Hin as [Heq|Hin].
           ++ injection Heq as -> ->. rewrite Hsize in Hs. injection Hs as <-.
              left. apply Qgeb_spec in Hr. rewrite Hr. set_solver.
           ++ right. exists vh', len', r'. auto.
    + intros x. rewrite H50, Hg50. split.
      * intros [Hx|(vh' & len' & r' & Hin & Hs & Hn & Hr)].
        -- destruct (Qgeb _ 50) eqn:E; [|auto].
           apply elem_of_union in Hx as [Hx|Hx]; [|auto].
           apply elem_of_singleton in Hx. right. exists vh, len, rsize.
           repeat split; auto; [left|now apply Qgeb_spec].
        -- right. exists vh', len', r'. repeat split; auto. now right.
      * intros [Hx|(vh' & len' & r' & Hin & Hs & Hn & Hr)].
        -- left. destruct (Qgeb _ 50); set_solver.
        -- apply elem_of_cons in Hin as [Heq|Hin].
           ++ injection Heq as -> ->. rewrite Hsize in Hs. injection Hs as <-.
              left. apply Qgeb_spec in Hr. rewrite Hr. set_solver.
           ++ right. exists vh', len', r'. auto.
Qed.

Lemma classify_loop_completes items st w :
  (forall vh len, (vh, len) ∈ items ->
     exists rsize, sizes !! vh = Some rsize /\ rsize <> 0) ->
  exists st', for_each (classify_item sizes name) items st w = (w, Ok st').
Proof.
  revert st. induction items as [|[vh len] items IH]; intros st Hsized;
    cbn [for_each].
  - unfold ret. eauto.
  - destruct (Hsized vh len) as (rsize & Hsize & Hnz); [left|].
    unfold bind at 1. unfold classify_item at 1, classify. unfold bind at 1.
    rewrite (getitem_Some _ _ _ _ Hsize). unfold bind at 1.
    rewrite fdiv_nonzero by exact Hnz. unfold ret at 1.
    apply IH. intros vh' len' Hin. apply (Hsized vh' len'). now right.
Qed.

End Classify.

Lemma rnaseqbench_hit_loop sizes st ctg hits w w' st' :
  rnaseqbench_hit sizes st (ctg, hits) w = (w', Ok st') ->
  for_each (classify_item sizes (fun _ => ctg)) (map_to_list (sum_bps hits))
    (goodctg st) w = (w', Ok (goodctg st')).
Proof. intros Hrun. now apply rnaseqbench_hit_Ok in Hrun as [Hloop _]. Qed.

(** X12: for sizes and summed bases below [2^40] (where the float ratio and
    the exact one are on the same side of 80 and of 50), a contig whose
    processing completes enters a band exactly when one of its subjects
    reaches the band: its bases on that subject, times 100, over the size of
    the subject, are at least 80 (or 50).  No other contig enters or leaves a
    band, and the step prints nothing. *)
Theorem contig_band_iff_some_subject_reaches
    (sizes : gmap string Z) (st st' : ctg_state) (ctg : string)
    (hits : list BlastLine) (w w' : world) :
  in_float_range sizes ->
  in_float_range (sum_bps hits) ->
  rnaseqbench_hit sizes st (ctg, hits) w = (w', Ok st') ->
  w' = w /\
  (forall x, x ∈ good80 (goodctg st') <->
     x ∈ good80 (goodctg st) \/
     (x = ctg /\ exists vh, reaches sizes 80 (sum_bps hits) vh)) /\
  (forall x, x ∈ good50 (goodctg st') <->
     x ∈ good50 (goodctg st) \/
     (x = ctg /\ exists vh, reaches sizes 50 (sum_bps hits) vh)).
Proof.
  intros _ _ Hrun. apply rnaseqbench_hit_loop in Hrun.
  apply classify_loop_inv in Hrun as (-> & _ & H80 & H50).
  split; [reflexivity|]. unfold reaches.
  split; intros x; [rewrite H80 | rewrite H50]; split;
    (intros [Hx|Hx]; [now left|right]).
  - destruct Hx as (vh & len & rsize & Hin & Hs & -> & Hr).
    apply elem_of_map_to_list in Hin. split; [reflexivity|]. eauto 6.
  - destruct Hx as (-> & vh & len & rsize & Hb & Hs & Hr).
    exists vh, len, rsize. rewrite elem_of_map_to_list. auto.
  - destruct Hx as (vh & len & rsize & Hin & Hs & -> & Hr).
    apply elem_of_map_to_list in Hin. split; [reflexivity|]. eauto 6.
  - destruct Hx as (-> & vh & len & rsize & Hb & Hs & Hr).
    exists vh, len, rsize. rewrite elem_of_map_to_list. auto.
Qed.

Lemma contig_band_iff_some_subject_reaches_witness :
  let sizes : gmap string Z := {[ "geneA" := 1000; "geneB" := 100 ]} in
  let hits := [hit "ctg1" "geneA" 1 100 1 100 100 0 0;
               hit "ctg1" "geneB" 101 160 1 60 60 0 0] in
  let st' := {| chimers := 1;
                goodctg := {| good80 := ∅; good50 := {[ "ctg1" ]} |} |} in
  in_float_range sizes /\ in_float_range (sum_bps hits) /\
  rnaseqbench_hit sizes ctg_state0 ("ctg1", hits) world0 = (world0, Ok st') /\
  exists vh, reaches sizes 50 (sum_bps hits) vh.
Proof.
  intros sizes hits st'.
  assert (Hs : in_float_range sizes)
    by (apply (bool_decide_unpack _); vm_compute; exact I).
  assert (Hb : in_float_range (sum_bps hits))
    by (apply (bool_decide_unpack _); vm_compute; exact I).
  assert (Hrun : rnaseqbench_hit sizes ctg_state0 ("ctg1", hits) world0
                 = (world0, Ok st'))
    by (vm_compute; reflexivity).
  split; [exact Hs|]. split; [exact Hb|]. split; [exact Hrun|].
  destruct (contig_band_iff_some_subject_reaches _ _ _ _ _ _ _ Hs Hb Hrun)
    as (_ & _ & H50).
  destruct (proj1 (H50 "ctg1")) as [Hin|[_ Hreach]].
  - subst st'. cbn [good50 goodctg]. now apply elem_of_singleton.
  - exfalso. revert Hin. unfold ctg_state0. cbn [good50 goodctg].
    apply not_elem_of_empty.
  - exact Hreach.
Defined.

(** X13: for sizes and summed bases below [2^40] (where the float ratio and
    the exact one are on the same side of 80 and of 50), after a reference
    pass that completes a subject is in the 80% band (in the 50% band)
    exactly when the bases summed for it over every record of the file, times
    100, over its size, are at least 80 (at least 50). *)
Theorem reference_band_iff_reaches
    (sizes : gmap string Z) (lines : list BlastLine) (w w' : world)
    (goodref : bands) :
  in_float_range sizes ->
  in_float_range (sum_bps lines) ->
  rnaseqbench_ref sizes lines w = (w', Ok goodref) ->
  (forall vh, vh ∈ good80 goodref <-> reaches sizes 80 (sum_bps lines) vh) /\
  (forall vh, vh ∈ good50 goodref <-> reaches sizes 50 (sum_bps lines) vh).
Proof.
  unfold rnaseqbench_ref, iter_line. intros _ _ Hrun.
  apply (classify_loop_inv sizes (fun vh => vh)) in Hrun as (_ & _ & H80 & H50).
  unfold reaches. split; intros vh; [rewrite H80 | rewrite H50]; split.
  - intros [Hx|(vh' & len & rsize & Hin & Hs & -> & Hr)]; [set_solver|].
    apply elem_of_map_to_list in Hin. eauto.
  - intros (len & rsize & Hb & Hs & Hr). right.
    exists vh, len, rsize. rewrite elem_of_map_to_list. auto.
  - intros [Hx|(vh' & len & rsize & Hin & Hs & -> & Hr)]; [set_solver|].
    apply elem_of_map_to_list in Hin. eauto.
  - intros (len & rsize & Hb & Hs & Hr). right.
    exists vh, len, rsize. rewrite elem_of_map_to_list. auto.
Qed.

Lemma reference_band_iff_reaches_witness :
  let sizes : gmap string Z := {[ "geneA" := 1000; "geneB" := 200 ]} in
  let lines := [hit "ctg1" "geneA" 1 850 1 850 850 0 0;
                hit "ctg2" "geneB" 1 120 1 120 120 0 0] in
  in_float_range sizes /\ in_float_range (sum_bps lines) /\
  reaches sizes 80 (sum_bps lines) "geneA".
Proof.
  intros sizes lines.
  assert (Hs : in_float_range sizes)
    by (apply (bool_decide_unpack _); vm_compute; exact I).
  assert (Hb : in_float_range (sum_bps lines))
    by (apply (bool_decide_unpack _); vm_compute; exact I).
  assert (Hrun : rnaseqbench_ref sizes lines world0
                 = (world0, Ok {| good80 := {[ "geneA" ]};
                                  good50 := {[ "geneA"; "geneB" ]} |}))
    by (vm_compute; reflexivity).
  split; [exact Hs|]. split; [exact Hb|].
  apply (proj1 (reference_band_iff_reaches _ _ _ _ _ Hs Hb Hrun) "geneA").
  cbn [good80]. now apply elem_of_singleton.
Defined.

(** ** When the passes complete *)

Lemma items_sized_iff (sizes : gmap string Z) hits :
  (forall vh len, (vh, len) ∈ map_to_list (sum_bps hits) ->
     exists rsize, sizes !! vh = Some rsize /\ rsize <> 0) <->
  Forall (fun x => exists rsize, sizes !! subject x = Some rsize /\ rsize <> 0) hits.
Proof.
  rewrite Forall_forall. split.
  - intros Hitems x Hx.
    assert (Hin : subject x ∈ dom (sum_bps hits)).
    { rewrite dom_sum_bps. unfold subjects.
      apply elem_of_list_to_set, list_elem_of_fmap. eauto. }
    apply elem_of_dom in Hin as [len Hlen].
    apply (Hitems (subject x) len). now apply elem_of_map_to_list.
  - intros Hall vh len Hin. apply elem_of_map_to_list in Hin.
    assert (Hdom : vh ∈ dom (sum_bps hits)) by (apply elem_of_dom; eauto).
    rewrite dom_sum_bps in Hdom. unfold subjects in Hdom.
    apply elem_of_list_to_set, list_elem_of_fmap in Hdom as (x & -> & Hx). auto.
Qed.

(** X14: both passes of [rnaseqbench] go through exactly when every record
    they read has a subject that is in the size table with a size that is
    not zero; the query pass for the records of the contig at hand, the
    reference pass for the records of the whole file. *)
Theorem passes_complete_iff_subjects_sized (sizes : gmap string Z) :
  (forall st ctg hits w,
     completes (rnaseqbench_hit sizes st (ctg, hits) w).2 <->
     Forall (fun x => exists rsize, sizes !! subject x = Some rsize /\ rsize <> 0) hits) /\
  (forall lines w,
     completes (rnaseqbench_ref sizes lines w).2 <->
     Forall (fun x => exists rsize, sizes !! subject x = Some rsize /\ rsize <> 0) lines).
Proof.
  split.
  - intros st ctg hits w. rewrite <- items_sized_iff. split.
    + destruct (rnaseqbench_hit sizes st (ctg, hits) w) as [w' [st'|e]] eqn:Hrun;
        [intros _|intros []].
      apply rnaseqbench_hit_loop in Hrun.
      now apply classify_loop_inv in Hrun as (_ & Hsized & _).
    + intros Hsized.
      destruct (classify_loop_completes sizes (fun _ => ctg)
                  (map_to_list (sum_bps hits)) (goodctg st) w Hsized) as [good Hloop].
      unfold rnaseqbench_hit, bind.
      change (for_each (fun b '(vh, length) => classify sizes ctg b vh length))
        with (for_each (classify_item sizes (fun _ => ctg))).
      rewrite Hloop. exact I.
  - intros lines w. rewrite <- items_sized_iff. unfold rnaseqbench_ref, iter_line.
    change (for_each (fun b '(vh, length) => classify sizes vh b vh length))
      with (for_each (classify_item sizes (fun vh => vh))).
    split.
    + destruct (for_each _ _ _ w) as [w' [st'|e]] eqn:Hrun; [intros _|intros []].
      now apply classify_loop_inv in Hrun as (_ & Hsized & _).
    + intros Hsized.
      destruct (classify_loop_completes sizes (fun vh => vh)
                  (map_to_list (sum_bps lines)) {| good80 := ∅; good50 := ∅ |}
                  w Hsized) as [good Hloop].
      rewrite Hloop. exact I.
Qed.

(** ** Bounds on what is reported *)



Lemma rnaseqbench_pass_bands sizes groups st w w' st' :
  for_each (rnaseqbench_hit sizes) groups st w = (w', Ok st') ->
  w' = w /\
  good50 (goodctg st') ⊆ list_to_set groups.*1 ∪ good50 (goodctg st).
Proof.
  revert st w. induction groups as [|[ctg hits] groups IH]; intros st w Hrun;
    cbn [for_each] in Hrun.
  - unfold ret in Hrun. injection Hrun as <- <-. split; [reflexivity|set_solver].
  - apply bind_Ok in Hrun as (w1 & st1 & Hhit & Hrest).
    apply IH in Hrest as (-> & Hsub).
    apply rnaseqbench_hit_loop in Hhit.
    apply classify_loop_inv in Hhit as (-> & _ & _ & H50).
    split; [reflexivity|]. intros x Hx. apply Hsub in Hx.
    rewrite fmap_cons, list_to_set_cons. cbn [fst].
    apply elem_of_union in Hx as [Hx|Hx]; [set_solver|].
    apply H50 in Hx as [Hx|(vh & len & rsize & _ & _ & -> & _)]; set_solver.
Qed.

(** X16: after a query pass that completes, the chimera count is the number
    of groups with at least two distinct subjects, hence between 0 and the
    number of groups; the contigs of the bands are ids of groups; and the
    pass has printed nothing. *)
Theorem query_pass_counts
    (sizes : gmap string Z) (groups : list (string * list BlastLine))
    (w w' : world) (cs : ctg_state) :
  for_each (rnaseqbench_hit sizes) groups ctg_state0 w = (w', Ok cs) ->
  w' = w /\
  chimers cs
    = Z.of_nat (length (filter (fun g => (2 <= size (subjects g.2))%nat) groups)) /\
  0 <= chimers cs <= Z.of_nat (length groups) /\
  good80 (goodctg cs) ⊆ list_to_set groups.*1 /\
  good50 (goodctg cs) ⊆ list_to_set groups.*1.
Proof.
  intros Hrun.
  pose proof (chimers_count _ _ _ _ _ _ Hrun) as Hch. cbn [chimers ctg_state0] in Hch.
  pose proof (rnaseqbench_pass_bands _ _ _ _ _ _ Hrun) as (-> & H50).
  assert (Hnested : nested (goodctg cs)).
  { revert Hrun.
    apply for_each_invariant with (P := fun st => nested (goodctg st)).
    - intros st x w1 w2 st'. apply rnaseqbench_hit_nested.
    - unfold nested. simpl. set_solver. }
  pose proof (length_filter (fun g : string * list BlastLine =>
                (2 <= size (subjects g.2))%nat) groups) as Hle.
  cbn [good50 goodctg ctg_state0] in H50. unfold nested in Hnested.
  split; [reflexivity|]. split; [lia|]. split; [lia|].
  split; set_solver.
Qed.

Lemma query_pass_counts_witness :
  let sizes : gmap string Z := {[ "geneA" := 1000; "geneB" := 100 ]} in
  let groups := [("ctg1", [hit "ctg1" "geneA" 1 100 1 100 100 0 0;
                           hit "ctg1" "geneB" 101 160 1 60 60 0 0]);
                 ("ctg2", [hit "ctg2" "geneA" 1 900 1 900 900 0 0])] in
  let cs := {| chimers := 1;
               goodctg := {| good80 := {[ "ctg2" ]};
                             good50 := {[ "ctg1"; "ctg2" ]} |} |} in
  for_each (rnaseqbench_hit sizes) groups ctg_state0 world0 = (world0, Ok cs) /\
  0 <= chimers cs <= Z.of_nat (length groups).
Proof.
  intros sizes groups cs.
  assert (Hrun : for_each (rnaseqbench_hit sizes) groups ctg_state0 world0
                 = (world0, Ok cs))
    by (vm_compute; reflexivity).
  split; [exact Hrun|].
  exact (proj1 (proj2 (proj2 (query_pass_counts _ _ _ _ _ Hrun)))).
Defined.

(** ** Running [rnaseqbench] again *)

Lemma stable_ret {A} (a : A) : stable (ret a).
Proof. intros files. exists files, [], (Ok a). intros tr. unfold ret. now rewrite app_nil_r. Qed.

Lemma stable_raise {A} e : stable (@raise A e).
Proof.
  intros files. exists files, [], (Raise e). intros tr. unfold raise.
  now rewrite app_nil_r.
Qed.

Lemma stable_emit e : stable (emit e).
Proof. intros files. exists files, [e], (Ok tt). reflexivity. Qed.

Lemma stable_bind {A B} (m : M A) (k : A -> M B) :
  stable m -> (forall a, stable (k a)) -> stable (bind m k).
Proof.
  intros Hm Hk files. destruct (Hm files) as (files1 & evs1 & [a|e] & H1).
  - destruct (Hk a files1) as (files2 & evs2 & r2 & H2).
    exists files2, (evs1 ++ evs2), r2. intros tr.
    unfold bind. rewrite H1, H2, app_assoc. reflexivity.
  - exists files1, evs1, (Raise e). intros tr. unfold bind. now rewrite H1.
Qed.

Lemma stable_for_each {A S} (body : S -> A -> M S) xs :
  (forall st x, stable (body st x)) -> forall st, stable (for_each body xs st).
Proof.
  intros Hbody. induction xs as [|x xs IH]; intros st; cbn [for_each].
  - apply stable_ret.
  - apply stable_bind; auto.
Qed.

Lemma stable_fdiv a b : stable (fdiv a b).
Proof.
  unfold fdiv. destruct (Qeq_bool b 0); [apply stable_raise | apply stable_ret].
Qed.

Lemma stable_getitem d k : stable (getitem d k).
Proof.
  unfold getitem. destruct (d !! k); [apply stable_ret | apply stable_raise].
Qed.

Lemma stable_Blast path : stable (Blast path).
Proof.
  intros files. exists files, [EvOpen path].
  exists (match files !! path with
          | Some (BlastFile lines) => Ok lines
          | _ => Raise (IOError path)
          end).
  intros tr. now rewrite Blast_run.
Qed.

Lemma stable_classify sizes nm st vh len : stable (classify sizes nm st vh len).
Proof.
  unfold classify. apply stable_bind; [apply stable_getitem|]. intros rsize.
  apply stable_bind; [apply stable_fdiv|]. intros ratio. apply stable_ret.
Qed.

Lemma stable_rnaseqbench_hit sizes st hit : stable (rnaseqbench_hit sizes st hit).
Proof.
  destruct hit as [ctg hits]. unfold rnaseqbench_hit.
  apply stable_bind; [|intros; apply stable_ret].
  apply stable_for_each. intros b [vh len]. apply stable_classify.
Qed.

Lemma stable_rnaseqbench_ref sizes lines : stable (rnaseqbench_ref sizes lines).
Proof.
  unfold rnaseqbench_ref. apply stable_for_each.
  intros b [vh len]. apply stable_classify.
Qed.

Lemma stable_rnaseqbench_report reffasta known cs goodref :
  stable (rnaseqbench_report reffasta known cs goodref).
Proof.
  unfold rnaseqbench_report, print_stderr.
  repeat first [ apply stable_emit | apply stable_fdiv
               | apply stable_bind; [|intros ?] ].
Qed.

Lemma stable_rnaseqbench_passes iter sizes reffasta querysupermap refsupermap :
  stable (rnaseqbench_passes iter sizes reffasta querysupermap refsupermap).
Proof.
  unfold rnaseqbench_passes.
  apply stable_bind; [apply stable_Blast|]. intros blast.
  apply stable_bind;
    [apply stable_for_each; intros; apply stable_rnaseqbench_hit|]. intros cs.
  apply stable_bind; [apply stable_Blast|]. intros blast2.
  apply stable_bind; [apply stable_rnaseqbench_ref|]. intros goodref.
  apply stable_rnaseqbench_report.
Qed.

Section Rerun.

Variable parse_args : forall O : Type, O -> list string -> O * list string.
Variable Blast_iter_hits : list BlastLine -> list (string * list BlastLine).
Variable nonredundant : string -> list BlastLine -> list BlastLine.

(** Up to the passes, with the files and the events at that point. *)
Lemma rnaseqbench_run_passes args blastfile reffasta files sizes lines :
  parse_args unit tt args = (tt, [blastfile; reffasta]) ->
  files !! reffasta = Some (SizesFile sizes) ->
  files !! blastfile = Some (BlastFile lines) ->
  let querysupermap := blastfile +:+ ".query.supermap" in
  let refsupermap := blastfile +:+ ".ref.supermap" in
  let qfound := bool_decide (is_Some (files !! querysupermap)) in
  let rfound := bool_decide (is_Some (files !! refsupermap)) in
  let files1 :=
    if qfound then files
    else <[querysupermap := BlastFile (nonredundant "query" lines)]> files in
  let files2 :=
    if rfound then files1
    else <[refsupermap := BlastFile (nonredundant "ref" lines)]> files1 in
  let head :=
    [EvOpen reffasta; EvExists querysupermap qfound]
    ++ (if qfound then [] else [EvSupermap blastfile "query"; EvOpen blastfile])
    ++ [EvExists refsupermap rfound]
    ++ (if rfound then [] else [EvSupermap blastfile "ref"; EvOpen blastfile]) in
  rnaseqbench parse_args Blast_iter_hits nonredundant args
    {| fs := files; trace := [] |}
  = rnaseqbench_passes Blast_iter_hits sizes reffasta querysupermap refsupermap
      {| fs := files2; trace := head |}.
Proof.
  intros Hparse Hf Hb querysupermap refsupermap qfound rfound files1 files2 head.
  rewrite (rnaseqbench_two_args _ _ _ _ _ _ _ Hparse).
  fold querysupermap refsupermap.
  unfold bind at 1. rewrite Sizes_run. simpl fs; simpl trace. rewrite Hf.
  unfold bind at 1. rewrite op_exists_run. simpl fs; simpl trace. fold qfound.
  assert (Hqr : querysupermap <> refsupermap) by apply supermap_paths_differ.
  assert (Hqb : querysupermap <> blastfile) by (apply append_ne; discriminate).
  assert (Hb1 : files1 !! blastfile = Some (BlastFile lines)).
  { subst files1. destruct qfound; [exact Hb|].
    rewrite lookup_insert_ne by exact Hqb. exact Hb. }
  assert (Hr1 : bool_decide (is_Some (files1 !! refsupermap)) = rfound).
  { subst files1. destruct qfound; [reflexivity|].
    rewrite lookup_insert_ne by exact Hqr. reflexivity. }
  unfold bind at 1.
  match goal with
  | |- context [when (negb qfound) ?m ?w] =>
      assert (Hq : when (negb qfound) m w
                   = ({| fs := files1;
                         trace := trace w
                                  ++ (if qfound then []
                                      else [EvSupermap blastfile "query"; EvOpen blastfile]) |},
                      Ok tt))
  end.
  { subst files1. destruct qfound; simpl negb; simpl when.
    - unfold ret. simpl trace. now rewrite app_nil_r.
    - now rewrite (supermap_run _ _ _ lines) by exact Hb. }
  rewrite Hq. clear Hq.
  unfold bind at 1. rewrite op_exists_run. simpl fs; simpl trace. rewrite Hr1.
  unfold bind at 1.
  match goal with
  | |- context [when (negb rfound) ?m ?w] =>
      assert (Hr : when (negb rfound) m w
                   = ({| fs := files2;
                         trace := trace w
                                  ++ (if rfound then []
                                      else [EvSupermap blastfile "ref"; EvOpen blastfile]) |},
                      Ok tt))
  end.
  { subst files2. destruct rfound; simpl negb; simpl when.
    - unfold ret. simpl trace. now rewrite app_nil_r.
    - now rewrite (supermap_run _ _ _ lines) by exact Hb1. }
  rewrite Hr. clear Hr. simpl trace. unfold rnaseqbench_passes. subst head.
  simpl. rewrite <- !app_assoc. reflexivity.
Qed.

End Rerun.

Lemma artifacts_in_place (files : gmap string file) (q r b f : string)
    (cq cr x y : file) :
  q <> r -> q <> b -> r <> b ->
  files !! f = Some x -> files !! b = Some y ->
  let files1 := if bool_decide (is_Some (files !! q)) then files
                else <[q := cq]> files in
  let files2 := if bool_decide (is_Some (files !! r)) then files1
                else <[r := cr]> files1 in
  is_Some (files2 !! q) /\ is_Some (files2 !! r) /\
  files2 !! f = Some x /\ files2 !! b = Some y.
Proof.
  intros Hqr Hqb Hrb Hf Hb files1 files2. subst files1 files2.
  destruct (bool_decide (is_Some (files !! q))) eqn:Eq;
    destruct (bool_decide (is_Some (files !! r))) eqn:Er;
    try apply bool_decide_eq_true in Eq; try apply bool_decide_eq_true in Er;
    try apply bool_decide_eq_false in Eq; try apply bool_decide_eq_false in Er;
    try (assert (Hfq : f <> q) by (intros ->; apply Eq; eauto));
    try (assert (Hfr : f <> r) by (intros ->; apply Er; eauto)).
  - auto.
  - rewrite lookup_insert_eq, !lookup_insert_ne by auto. auto.
  - rewrite lookup_insert_eq, !lookup_insert_ne by auto. auto.
  - rewrite lookup_insert_eq, (lookup_insert_ne _ r q) by auto.
    rewrite lookup_insert_eq, !lookup_insert_ne by auto. auto.
Qed.

Section RerunTwice.

Variable parse_args : forall O : Type, O -> list string -> O * list string.
Variable Blast_iter_hits : list BlastLine -> list (string * list BlastLine).
Variable nonredundant : string -> list BlastLine -> list BlastLine.

(** X17: running [rnaseqbench] a second time on the files the first run has
    left gives the same outcome and prints the same lines, without any call to
    the redundancy filter and without any change to the files: the second run
    finds both artifacts and reads what the first one read. *)
Theorem rnaseqbench_rerun_same_report
    (args : list string) (blastfile reffasta : string)
    (files : gmap string file) (sizes : gmap string Z) (lines : list BlastLine) :
  parse_args unit tt args = (tt, [blastfile; reffasta]) ->
  files !! reffasta = Some (SizesFile sizes) ->
  files !! blastfile = Some (BlastFile lines) ->
  let run1 := rnaseqbench parse_args Blast_iter_hits nonredundant args
                {| fs := files; trace := [] |} in
  let run2 := rnaseqbench parse_args Blast_iter_hits nonredundant args
                {| fs := fs run1.1; trace := [] |} in
  run2.2 = run1.2 /\
  lines_printed (trace run2.1) = lines_printed (trace run1.1) /\
  filters_invoked (trace run2.1) = [] /\
  fs run2.1 = fs run1.1.
Proof.
  intros Hparse Hf Hb run1 run2.
  pose proof (rnaseqbench_run_passes parse_args Blast_iter_hits nonredundant
                _ _ _ _ _ _ Hparse Hf Hb) as H1.
  cbv zeta in H1.
  set (q := blastfile +:+ ".query.supermap") in *.
  set (r := blastfile +:+ ".ref.supermap") in *.
  assert (Hqr : q <> r) by apply supermap_paths_differ.
  assert (Hqb : q <> blastfile) by (apply append_ne; discriminate).
  assert (Hrb : r <> blastfile) by (apply append_ne; discriminate).
  destruct (artifacts_in_place files q r blastfile reffasta
              (BlastFile (nonredundant "query" lines))
              (BlastFile (nonredundant "ref" lines)) _ _ Hqr Hqb Hrb Hf Hb)
    as (Hq2 & Hr2 & Hf2 & Hb2).
  set (files2 := if bool_decide (is_Some (files !! r)) then _ else _) in *.
  set (head := [EvOpen reffasta; EvExists q _] ++ _) in H1.
  destruct (stable_rnaseqbench_passes Blast_iter_hits sizes reffasta q r files2)
    as (files' & evs & res & Hst).
  assert (Hfiles' : files' = files2).
  { destruct (passes_run Blast_iter_hits sizes reffasta q r
                {| fs := files2; trace := [] |}) as (evs0 & res0 & Hp & _).
    rewrite Hst in Hp. now injection Hp as -> _. }
  subst files'.
  assert (Hrun1 : run1 = ({| fs := files2; trace := head ++ evs |}, res)).
  { subst run1. rewrite H1. apply Hst. }
  assert (Hrun2 : run2 = ({| fs := files2;
                             trace := [EvOpen reffasta; EvExists q true;
                                       EvExists r true] ++ evs |}, res)).
  { subst run2. rewrite Hrun1. cbn [fst fs].
    pose proof (rnaseqbench_run_passes parse_args Blast_iter_hits nonredundant
                  _ _ _ _ _ _ Hparse Hf2 Hb2) as H2.
    cbv zeta in H2. fold q r in H2.
    rewrite (bool_decide_eq_true_2 _ Hq2), (bool_decide_eq_true_2 _ Hr2) in H2.
    rewrite H2. apply Hst. }
  assert (Hhead : lines_printed head = []).
  { subst head. unfold lines_printed.
    destruct (bool_decide (is_Some (files !! q))),
             (bool_decide (is_Some (files !! r))); reflexivity. }
  rewrite Hrun1, Hrun2. cbn [fst snd fs trace].
  split; [reflexivity|]. split; [|split; [|reflexivity]].
  - unfold lines_printed in *. rewrite !omap_app, Hhead. reflexivity.
  - destruct (passes_run Blast_iter_hits sizes reffasta q r
                {| fs := files2; trace := [] |}) as (evs0 & res0 & Hp & Hfi & _).
    rewrite Hst in Hp. injection Hp as -> _.
    rewrite filters_invoked_app, Hfi. reflexivity.
Qed.

End RerunTwice.

Lemma rnaseqbench_rerun_same_report_witness :
  let hits := [hit "ctg1" "geneA" 1 850 1 850 850 0 0] in
  let files : gmap string file :=
    {[ "ref.fasta" := SizesFile {[ "geneA" := 1000 ]};
       "ctg.blast" := BlastFile hits ]} in
  let run1 := rnaseqbench no_options one_per_line keep_all
                ["ctg.blast"; "ref.fasta"] {| fs := files; trace := [] |} in
  let run2 := rnaseqbench no_options one_per_line keep_all
                ["ctg.blast"; "ref.fasta"] {| fs := fs run1.1; trace := [] |} in
  filters_invoked (trace run1.1) = [("ctg.blast", "query"); ("ctg.blast", "ref")] /\
  filters_invoked (trace run2.1) = [] /\
  run2.2 = run1.2 /\ run1.2 = Ok tt.
Proof.
  intros hits files run1 run2.
  destruct (rnaseqbench_rerun_same_report no_options one_per_line keep_all
              ["ctg.blast"; "ref.fasta"] "ctg.blast" "ref.fasta" files
              {[ "geneA" := 1000 ]} hits eq_refl) as (Hsame & _ & Hnone & _);
    try (vm_compute; reflexivity).
  split; [vm_compute; reflexivity|]. split; [exact Hnone|].
  split; [exact Hsame|]. vm_compute. reflexivity.
Defined.

(** ** Artifacts without a record *)

Section NoRecord.

Variable parse_args : forall O : Type, O -> list string -> O * list string.
Variable Blast_iter_hits : list BlastLine -> list (string * list BlastLine).
Variable nonredundant : string -> list BlastLine -> list BlastLine.

(** X18: unlike [estsummary], [rnaseqbench] goes through on alignments
    without a record, provided the size table is not empty: with both
    artifacts on disk, no group in the query one and no record in the
    reference one, it reports 0 contigs in each band, 0 reference sequences
    (0%) in each band and 0 chimeras. *)
Theorem rnaseqbench_no_record_reports_zero
    (args : list string) (blastfile reffasta : string)
    (files : gmap string file) (sizes : gmap string Z) (qlines : list BlastLine) :
  parse_args unit tt args = (tt, [blastfile; reffasta]) ->
  files !! reffasta = Some (SizesFile sizes) ->
  len_map sizes <> 0 ->
  files !! (blastfile +:+ ".query.supermap") = Some (BlastFile qlines) ->
  files !! (blastfile +:+ ".ref.supermap") = Some (BlastFile []) ->
  Blast_iter_hits qlines = [] ->
  let known_genes := len_map sizes in
  let run := rnaseqbench parse_args Blast_iter_hits nonredundant args
               {| fs := files; trace := [] |} in
  run.2 = Ok tt /\ fs run.1 = files /\
  filters_invoked (trace run.1) = [] /\
  stderr_lines (trace run.1)
  = [LReferenceSet reffasta known_genes; LCtg80 0; LCtg50 0;
     LRef80 0 (float_of_int 0 * 100 / float_of_int known_genes)%Q;
     LRef50 0 (float_of_int 0 * 100 / float_of_int known_genes)%Q;
     LChimers 0].
Proof.
  intros Hparse Hf Hn Hq Hr Hnone known_genes run.
  assert (Hrun : run =
    ({| fs := files;
        trace := [EvOpen reffasta;
                  EvExists (blastfile +:+ ".query.supermap") true;
                  EvExists (blastfile +:+ ".ref.supermap") true;
                  EvOpen (blastfile +:+ ".query.supermap");
                  EvOpen (blastfile +:+ ".ref.supermap");
                  EvStderr (LReferenceSet reffasta known_genes);
                  EvStderr (LCtg80 0); EvStderr (LCtg50 0);
                  EvStderr (LRef80 0
                    (float_of_int 0 * 100 / float_of_int known_genes)%Q);
                  EvStderr (LRef50 0
                    (float_of_int 0 * 100 / float_of_int known_genes)%Q);
                  EvStderr (LChimers 0)] |}, Ok tt)).
  { subst run. rewrite (rnaseqbench_two_args _ _ _ _ _ _ _ Hparse).
    unfold bind at 1. rewrite Sizes_run. cbn [fs trace]. rewrite Hf.
    unfold bind at 1. rewrite op_exists_run. cbn [fs trace]. rewrite Hq.
    change (bool_decide (is_Some (Some (BlastFile qlines)))) with true.
    unfold bind at 1. cbn [when negb]. unfold ret at 1.
    unfold bind at 1. rewrite op_exists_run. cbn [fs trace]. rewrite Hr.
    change (bool_decide (is_Some (Some (BlastFile [])))) with true.
    unfold bind at 1. cbn [when negb]. unfold ret at 1.
    unfold bind at 1. rewrite Blast_run. cbn [fs trace]. rewrite Hq, Hnone.
    unfold bind at 1. cbn [for_each]. unfold ret at 1.
    unfold bind at 1. rewrite Blast_run. cbn [fs trace]. rewrite Hr.
    unfold bind at 1.
    change (rnaseqbench_ref sizes [] ?w)
      with (@ret bands {| good80 := ∅; good50 := ∅ |} w).
    unfold ret at 1.
    unfold rnaseqbench_report, bind, print_stderr, emit. cbn [fs trace].
    change (len_set (good80 (goodctg ctg_state0))) with 0.
    change (len_set (good50 (goodctg ctg_state0))) with 0.
    change (len_set (good80 {| good80 := ∅; good50 := ∅ |})) with 0.
    change (len_set (good50 {| good80 := ∅; good50 := ∅ |})) with 0.
    rewrite !fdiv_nonzero by exact Hn. reflexivity. }
  rewrite Hrun. cbn [fst snd fs trace]. repeat split; reflexivity.
Qed.

End NoRecord.

Lemma rnaseqbench_no_record_reports_zero_witness :
  let files : gmap string file :=
    {[ "ref.fasta" := SizesFile {[ "geneA" := 1000 ]};
       "ctg.blast.query.supermap" := BlastFile [];
       "ctg.blast.ref.supermap" := BlastFile [] ]} in
  let run := rnaseqbench no_options one_per_line keep_all
               ["ctg.blast"; "ref.fasta"] {| fs := files; trace := [] |} in
  run.2 = Ok tt /\ fs run.1 = files.
Proof.
  intros files run.
  destruct (rnaseqbench_no_record_reports_zero no_options one_per_line keep_all
              ["ctg.blast"; "ref.fasta"] "ctg.blast" "ref.fasta" files
              {[ "geneA" := 1000 ]} [] eq_refl) as (Hok & Hfs & _);
    try (vm_compute; reflexivity).
  - vm_compute. discriminate.
  - split; [exact Hok | exact Hfs].
Defined.

(** ** What [rnaseqbench] writes *)

(** X19: the only files [rnaseqbench] writes are the artifacts that were
    missing, each with what the redundancy filter keeps of the records of the
    alignment file for its direction; an artifact already on disk is left as
    it is, and so is every other file. *)
Theorem rnaseqbench_writes_missing_artifacts_only
    (parse_args : forall O : Type, O -> list string -> O * list string)
    (Blast_iter_hits : list BlastLine -> list (string * list BlastLine))
    (nonredundant : string -> list BlastLine -> list BlastLine)
    (args : list string) (blastfile reffasta : string)
    (files : gmap string file) (sizes : gmap string Z) (lines : list BlastLine)
    (path : string) :
  parse_args unit tt args = (tt, [blastfile; reffasta]) ->
  files !! reffasta = Some (SizesFile sizes) ->
  files !! blastfile = Some (BlastFile lines) ->
  let run := rnaseqbench parse_args Blast_iter_hits nonredundant args
               {| fs := files; trace := [] |} in
  fs run.1 !! path =
    match files !! path with
    | Some f => Some f
    | None =>
        if decide (path = blastfile +:+ ".query.supermap")
        then Some (BlastFile (nonredundant "query" lines))
        else if decide (path = blastfile +:+ ".ref.supermap")
        then Some (BlastFile (nonredundant "ref" lines))
        else None
    end.
Proof.
  intros Hparse Hf Hb run.
  destruct (rnaseqbench_run parse_args Blast_iter_hits nonredundant
              _ _ _ _ _ _ Hparse Hf Hb) as (evs & res & Hrun & _).
  subst run. rewrite Hrun. cbn [fst fs].
  pose proof (supermap_paths_differ blastfile) as Hqr.
  set (q := blastfile +:+ ".query.supermap") in *.
  set (r := blastfile +:+ ".ref.supermap") in *.
  destruct (files !! q) as [fq|] eqn:Eq; destruct (files !! r) as [fr|] eqn:Er;
    cbn [bool_decide decide_rel is_Some_dec].
  - change (bool_decide (is_Some (Some fq))) with true.
    change (bool_decide (is_Some (Some fr))) with true. cbn iota.
    destruct (files !! path) as [f|] eqn:Ep; [reflexivity|].
    rewrite decide_False by congruence. rewrite decide_False by congruence.
    reflexivity.
  - change (bool_decide (is_Some (Some fq))) with true.
    change (bool_decide (is_Some (@None file))) with false. cbn iota.
    destruct (decide (path = r)) as [->|Hpr].
    + rewrite lookup_insert_eq, Er. rewrite decide_False by auto. reflexivity.
    + rewrite lookup_insert_ne by auto.
      destruct (files !! path) as [f|] eqn:Ep; [reflexivity|].
      rewrite decide_False by congruence. reflexivity.
  - change (bool_decide (is_Some (@None file))) with false.
    change (bool_decide (is_Some (Some fr))) with true. cbn iota.
    destruct (decide (path = q)) as [->|Hpq].
    + rewrite lookup_insert_eq, Eq. reflexivity.
    + rewrite lookup_insert_ne by auto.
      destruct (files !! path) as [f|] eqn:Ep; [reflexivity|].
      rewrite decide_False by congruence. reflexivity.
  - change (bool_decide (is_Some (@None file))) with false. cbn iota.
    destruct (decide (path = r)) as [->|Hpr].
    + rewrite lookup_insert_eq, Er. rewrite decide_False by auto. reflexivity.
    + rewrite lookup_insert_ne by auto.
      destruct (decide (path = q)) as [->|Hpq].
      * rewrite lookup_insert_eq, Eq. reflexivity.
      * rewrite lookup_insert_ne by auto.
        destruct (files !! path); reflexivity.
Qed.

Lemma rnaseqbench_writes_missing_artifacts_only_witness :
  let hits := [hit "ctg1" "geneA" 1 850 1 850 850 0 0;
               hit "ctg1" "geneA" 1 500 1 500 500 0 0] in
  let files : gmap string file :=
    {[ "ref.fasta" := SizesFile {[ "geneA" := 1000 ]};
       "ctg.blast" := BlastFile hits;
       "ctg.blast.query.supermap" := BlastFile [] ]} in
  let run := rnaseqbench no_options one_per_line (fun _ l => take 1 l)
               ["ctg.blast"; "ref.fasta"] {| fs := files; trace := [] |} in
  fs run.1 !! "ctg.blast.query.supermap" = Some (BlastFile []) /\
  fs run.1 !! "ctg.blast.ref.supermap"
    = Some (BlastFile [hit "ctg1" "geneA" 1 850 1 850 850 0 0]).
Proof.
  intros hits files run. split.
  - refine (eq_trans (rnaseqbench_writes_missing_artifacts_only no_options
              one_per_line (fun _ l => take 1 l) ["ctg.blast"; "ref.fasta"]
              "ctg.blast" "ref.fasta" files {[ "geneA" := 1000 ]} hits
              "ctg.blast.query.supermap" eq_refl _ _) _);
      vm_compute; reflexivity.
  - refine (eq_trans (rnaseqbench_writes_missing_artifacts_only no_options
              one_per_line (fun _ l => take 1 l) ["ctg.blast"; "ref.fasta"]
              "ctg.blast" "ref.fasta" files {[ "geneA" := 1000 ]} hits
              "ctg.blast.ref.supermap" eq_refl _ _) _);
      vm_compute; reflexivity.
Defined.

(** * Chimeras and empty size tables, on the whole step *)

(** A group whose subjects all have a size that is not zero goes through,
    and its state afterwards is known. *)
Lemma rnaseqbench_hit_sized (sizes : gmap string Z) st ctg hits w :
  Forall (fun x => exists rsize, sizes !! subject x = Some rsize /\ rsize <> 0) hits ->
  exists good,
    rnaseqbench_hit sizes st (ctg, hits) w
    = (w, Ok {| chimers := if 1 <? Z.of_nat (size (subjects hits))
                           then chimers st + 1 else chimers st;
                goodctg := good |}).
Proof.
  intros Hsized. rewrite <- items_sized_iff in Hsized.
  destruct (classify_loop_completes sizes (fun _ => ctg)
              (map_to_list (sum_bps hits)) (goodctg st) w Hsized) as [good Hloop].
  exists good. unfold rnaseqbench_hit, bind.
  change (for_each (fun b '(vh, length) => classify sizes ctg b vh length))
    with (for_each (classify_item sizes (fun _ => ctg))).
  rewrite Hloop. unfold ret. now rewrite length_valid_hits.
Qed.

(** C4: in [rnaseqbench], a contig whose retained records all have a subject
    of known, non-zero size is processed to the end, and it is counted as a
    chimera exactly when the set of distinct subject ids among its records has
    at least 2 elements; with a single subject id, however many records, the
    chimera count is left as it is. *)
Theorem chimera_iff_two_subjects
    (sizes : gmap string Z) (st : ctg_state) (ctg : string)
    (hits : list BlastLine) (w : world) :
  Forall (fun x => exists rsize, sizes !! subject x = Some rsize /\ rsize <> 0) hits ->
  exists st',
    rnaseqbench_hit sizes st (ctg, hits) w = (w, Ok st') /\
    (chimers st' = chimers st + 1 <-> (2 <= size (subjects hits))%nat) /\
    (chimers st' = chimers st <-> (size (subjects hits) < 2)%nat).
Proof.
  intros Hsized.
  destruct (rnaseqbench_hit_sized sizes st ctg hits w Hsized) as [good Hrun].
  eexists. split; [exact Hrun|]. cbn [chimers].
  destruct (1 <? Z.of_nat (size (subjects hits))) eqn:E.
  - apply Z.ltb_lt in E. split; split; intros; lia.
  - apply Z.ltb_ge in E. split; split; intros; lia.
Qed.

(** A contig on two genes is counted, a contig in three fragments on one gene
    is not. *)
Lemma chimera_iff_two_subjects_witness :
  let sizes : gmap string Z := {[ "geneA" := 1000; "geneB" := 500 ]} in
  let chimeric := [hit "ctg1" "geneA" 1 100 1 100 100 0 0;
                   hit "ctg1" "geneB" 101 200 1 100 100 0 0] in
  let fragments := [hit "ctg2" "geneA" 1 100 1 100 100 0 0;
                    hit "ctg2" "geneA" 201 300 201 300 100 0 0;
                    hit "ctg2" "geneA" 401 500 401 500 100 0 0] in
  (exists st', rnaseqbench_hit sizes ctg_state0 ("ctg1", chimeric) world0
                 = (world0, Ok st') /\ chimers st' = 1) /\
  (exists st', rnaseqbench_hit sizes ctg_state0 ("ctg2", fragments) world0
                 = (world0, Ok st') /\ chimers st' = 0).
Proof.
  intros sizes chimeric fragments. split.
  - destruct (chimera_iff_two_subjects sizes ctg_state0 "ctg1" chimeric world0)
      as (st' & Hrun & Hyes & _).
    + repeat constructor; eexists; (split; [vm_compute; reflexivity|discriminate]).
    + exists st'. split; [exact Hrun|]. apply Hyes. vm_compute. lia.
  - destruct (chimera_iff_two_subjects sizes ctg_state0 "ctg2" fragments world0)
      as (st' & Hrun & _ & Hno).
    + repeat constructor; eexists; (split; [vm_compute; reflexivity|discriminate]).
    + exists st'. split; [exact Hrun|]. apply Hno. vm_compute. lia.
Defined.

(** With no size at all, a group or a file with a record fails on the lookup
    of the size of one of its subjects. *)
Lemma rnaseqbench_hit_no_sizes_subject st ctg x hits w :
  exists vh, vh ∈ subjects (x :: hits) /\
    rnaseqbench_hit ∅ st (ctg, x :: hits) w = (w, Raise (KeyError vh)).
Proof.
  unfold rnaseqbench_hit.
  pose proof (sum_bps_nonempty x hits) as Hne.
  destruct (map_to_list (sum_bps (x :: hits))) as [|[vh len] items] eqn:E;
    [contradiction|].
  exists vh. split; [|reflexivity].
  assert (Hin : (vh, len) ∈ map_to_list (sum_bps (x :: hits)))
    by (rewrite E; left).
  apply elem_of_map_to_list in Hin. rewrite <- dom_sum_bps.
  apply elem_of_dom. eauto.
Qed.

Lemma rnaseqbench_ref_no_sizes_subject x lines w :
  exists vh, vh ∈ subjects (x :: lines) /\
    rnaseqbench_ref ∅ (x :: lines) w = (w, Raise (KeyError vh)).
Proof.
  unfold rnaseqbench_ref, iter_line.
  pose proof (sum_bps_nonempty x lines) as Hne.
  destruct (map_to_list (sum_bps (x :: lines))) as [|[vh len] items] eqn:E;
    [contradiction|].
  exists vh. split; [|reflexivity].
  assert (Hin : (vh, len) ∈ map_to_list (sum_bps (x :: lines)))
    by (rewrite E; left).
  apply elem_of_map_to_list in Hin. rewrite <- dom_sum_bps.
  apply elem_of_dom. eauto.
Qed.

(** The passes on an empty size table. *)
Lemma rnaseqbench_passes_no_sizes iter reffasta q r qlines rlines w :
  fs w !! q = Some (BlastFile qlines) ->
  fs w !! r = Some (BlastFile rlines) ->
  let run := rnaseqbench_passes iter ∅ reffasta q r w in
  (iter qlines = [] -> rlines = [] ->
   run = ({| fs := fs w;
             trace := trace w ++ [EvOpen q; EvOpen r;
                                  EvStderr (LReferenceSet reffasta 0);
                                  EvStderr (LCtg80 0); EvStderr (LCtg50 0)] |},
          Raise ZeroDivisionError)) /\
  (forall ctg x hits rest,
     iter qlines = (ctg, x :: hits) :: rest ->
     exists vh, vh ∈ subjects (x :: hits) /\
       run = ({| fs := fs w; trace := trace w ++ [EvOpen q] |},
              Raise (KeyError vh))) /\
  (forall x rest,
     iter qlines = [] -> rlines = x :: rest ->
     exists vh, vh ∈ subjects rlines /\
       run = ({| fs := fs w; trace := trace w ++ [EvOpen q; EvOpen r] |},
              Raise (KeyError vh))).
Proof.
  intros Hq Hr run. subst run. unfold rnaseqbench_passes.
  split; [|split].
  - intros Hnone ->. unfold bind at 1. rewrite Blast_run, Hq, Hnone.
    unfold bind at 1. cbn [for_each]. unfold ret at 1.
    unfold bind at 1. rewrite Blast_run. cbn [fs trace]. rewrite Hr.
    unfold bind at 1.
    change (rnaseqbench_ref ∅ [] ?w0)
      with (@ret bands {| good80 := ∅; good50 := ∅ |} w0).
    unfold ret at 1.
    unfold rnaseqbench_report, bind, print_stderr, emit. cbn [fs trace].
    change (len_set (good80 (goodctg ctg_state0))) with 0.
    change (len_set (good50 (goodctg ctg_state0))) with 0.
    rewrite fdiv_by_zero by (unfold len_map; now rewrite map_size_empty).
    change (len_map (∅ : gmap string Z)) with 0.
    rewrite <- !app_assoc. reflexivity.
  - intros ctg x hits rest Hgroups.
    unfold bind at 1. rewrite Blast_run, Hq, Hgroups.
    unfold bind at 1. cbn [for_each]. unfold bind at 1.
    destruct (rnaseqbench_hit_no_sizes_subject ctg_state0 ctg x hits
                {| fs := fs w; trace := trace w ++ [EvOpen q] |})
      as (vh & Hin & ->).
    exists vh. split; [exact Hin | reflexivity].
  - intros x rest Hnone ->.
    unfold bind at 1. rewrite Blast_run, Hq, Hnone.
    unfold bind at 1. cbn [for_each]. unfold ret at 1.
    unfold bind at 1. rewrite Blast_run. cbn [fs trace]. rewrite Hr.
    unfold bind at 1.
    destruct (rnaseqbench_ref_no_sizes_subject x rest
                {| fs := fs w;
                   trace := (trace w ++ [EvOpen q]) ++ [EvOpen r] |})
      as (vh & Hin & ->).
    exists vh. split; [exact Hin|]. rewrite <- app_assoc. reflexivity.
Qed.

Lemma artifact_contents (files : gmap string file) (q r : string)
    (cq cr : list BlastLine) :
  q <> r ->
  (forall m, files !! q <> Some (SizesFile m)) ->
  (forall m, files !! r <> Some (SizesFile m)) ->
  let files1 := if bool_decide (is_Some (files !! q)) then files
                else <[q := BlastFile cq]> files in
  let files2 := if bool_decide (is_Some (files !! r)) then files1
                else <[r := BlastFile cr]> files1 in
  files2 !! q
    = Some (BlastFile match files !! q with Some (BlastFile l) => l | _ => cq end) /\
  files2 !! r
    = Some (BlastFile match files !! r with Some (BlastFile l) => l | _ => cr end).
Proof.
  intros Hqr Hq Hr files1 files2. subst files1 files2.
  destruct (files !! q) as [[m|lq]|] eqn:Eq; [now destruct (Hq m)| |];
    destruct (files !! r) as [[m|lr]|] eqn:Er; try (now destruct (Hr m)).
  - change (bool_decide (is_Some (Some (BlastFile lq)))) with true.
    change (bool_decide (is_Some (Some (BlastFile lr)))) with true.
    cbn iota. auto.
  - change (bool_decide (is_Some (Some (BlastFile lq)))) with true.
    change (bool_decide (is_Some (@None file))) with false. cbn iota.
    rewrite lookup_insert_eq, lookup_insert_ne by auto. auto.
  - change (bool_decide (is_Some (@None file))) with false.
    change (bool_decide (is_Some (Some (BlastFile lr)))) with true. cbn iota.
    rewrite lookup_insert_eq, lookup_insert_ne by auto. auto.
  - change (bool_decide (is_Some (@None file))) with false. cbn iota.
    rewrite lookup_insert_eq, lookup_insert_ne, lookup_insert_eq by auto. auto.
Qed.

Lemma stderr_lines_app tr1 tr2 :
  stderr_lines (tr1 ++ tr2) = stderr_lines tr1 ++ stderr_lines tr2.
Proof. apply omap_app. Qed.

(** C10, amended: with an empty size table neither command reports zero
    counts.  [estsummary]: when the alignment yields no hit group, it prints
    the cutoff and identity lines and fails with a division by zero on the
    mapped percentage; when it yields a group, it fails at the first group,
    before any summary line, with a division by zero on the identity of the
    group if its aligned length is 0 and with a lookup failure on the size of
    the query otherwise.  [rnaseqbench], each artifact being either missing
    (and then produced by the filter) or an alignment file on disk: when the
    query artifact yields no group and the reference artifact holds no
    record, it prints the reference-set line and the two contig lines and
    fails with a division by zero on the reference-coverage percentage; when
    the first group of the query artifact holds a record, it fails at that
    group, before any summary line, with a lookup failure on the size of one
    of the subjects of the group; when the query artifact yields no group and
    the reference artifact holds a record, it fails before any summary line
    with a lookup failure on the size of one of the subjects of the
    reference artifact. *)
Theorem empty_size_table_failures
    (parse_args : forall O : Type, O -> list string -> O * list string)
    (BlastSlow_iter_hits Blast_iter_hits : list BlastLine -> list (string * list BlastLine))
    (nonredundant : string -> list BlastLine -> list BlastLine)
    (args_est args_rna : list string) (opts : options)
    (blastfile fastafile : string) (files : gmap string file)
    (lines : list BlastLine) :
  parse_args options estsummary_defaults args_est = (opts, [blastfile; fastafile]) ->
  parse_args unit tt args_rna = (tt, [blastfile; fastafile]) ->
  files !! fastafile = Some (SizesFile ∅) ->
  files !! blastfile = Some (BlastFile lines) ->
  (forall m, files !! (blastfile +:+ ".query.supermap") <> Some (SizesFile m)) ->
  (forall m, files !! (blastfile +:+ ".ref.supermap") <> Some (SizesFile m)) ->
  let qlines := match files !! (blastfile +:+ ".query.supermap") with
                | Some (BlastFile l) => l
                | _ => nonredundant "query" lines
                end in
  let rlines := match files !! (blastfile +:+ ".ref.supermap") with
                | Some (BlastFile l) => l
                | _ => nonredundant "ref" lines
                end in
  let run := rnaseqbench parse_args Blast_iter_hits nonredundant args_rna
               {| fs := files; trace := [] |} in
  estsummary parse_args BlastSlow_iter_hits args_est {| fs := files; trace := [] |} =
    match BlastSlow_iter_hits lines with
    | [] =>
        ({| fs := files;
            trace := [EvOpen fastafile; EvOpen blastfile;
                      EvStderr (LCutoff (ident opts) (cov opts));
                      EvStderr (LIdentity 0 0 0)] |},
         Raise ZeroDivisionError)
    | (q, blines) :: _ =>
        ({| fs := files; trace := [EvOpen fastafile; EvOpen blastfile] |},
         Raise (if this_alignlen (sum_blines blines) =? 0
                then ZeroDivisionError else KeyError q))
    end /\
  (Blast_iter_hits qlines = [] -> rlines = [] ->
   run.2 = Raise ZeroDivisionError /\
   stderr_lines (trace run.1)
   = [LReferenceSet fastafile 0; LCtg80 0; LCtg50 0]) /\
  (forall ctg x hits rest,
     Blast_iter_hits qlines = (ctg, x :: hits) :: rest ->
     exists vh, vh ∈ subjects (x :: hits) /\
       run.2 = Raise (KeyError vh) /\ stderr_lines (trace run.1) = []) /\
  (forall x rest,
     Blast_iter_hits qlines = [] -> rlines = x :: rest ->
     exists vh, vh ∈ subjects rlines /\
       run.2 = Raise (KeyError vh) /\ stderr_lines (trace run.1) = []).
Proof.
  intros Hest Hrna Hf Hb Hqs Hrs qlines rlines run.
  split; [now apply estsummary_empty_sizes|].
  pose proof (rnaseqbench_run_passes parse_args Blast_iter_hits nonredundant
                _ _ _ _ _ _ Hrna Hf Hb) as Hrun.
  cbv zeta in Hrun. fold run in Hrun.
  pose proof (supermap_paths_differ blastfile) as Hqr.
  destruct (artifact_contents files _ _ (nonredundant "query" lines)
              (nonredundant "ref" lines) Hqr Hqs Hrs) as (Hq2 & Hr2).
  fold qlines rlines in Hq2, Hr2.
  set (q := blastfile +:+ ".query.supermap") in *.
  set (r := blastfile +:+ ".ref.supermap") in *.
  set (files2 := if bool_decide (is_Some (files !! r)) then _ else _) in *.
  set (head := [EvOpen fastafile; EvExists q _] ++ _) in Hrun.
  assert (Hhead : stderr_lines head = []).
  { subst head. unfold stderr_lines.
    destruct (bool_decide (is_Some (files !! q))),
             (bool_decide (is_Some (files !! r))); reflexivity. }
  destruct (rnaseqbench_passes_no_sizes Blast_iter_hits fastafile q r qlines rlines
              {| fs := files2; trace := head |} Hq2 Hr2)
    as (Hzero & Hkey & Hkeyref).
  cbn [fs trace] in Hzero, Hkey, Hkeyref.
  split; [|split].
  - intros Hnone Hnorec. rewrite Hrun, (Hzero Hnone Hnorec). cbn [fst snd trace].
    split; [reflexivity|]. rewrite stderr_lines_app, Hhead. reflexivity.
  - intros ctg x hits rest Hgroups.
    destruct (Hkey ctg x hits rest Hgroups) as (vh & Hin & Hpass).
    exists vh. split; [exact Hin|]. rewrite Hrun, Hpass. cbn [fst snd trace].
    split; [reflexivity|]. rewrite stderr_lines_app, Hhead. reflexivity.
  - intros x rest Hnone Hrec.
    destruct (Hkeyref x rest Hnone Hrec) as (vh & Hin & Hpass).
    exists vh. split; [exact Hin|]. rewrite Hrun, Hpass. cbn [fst snd trace].
    split; [reflexivity|]. rewrite stderr_lines_app, Hhead. reflexivity.
Qed.

(** An empty size table; an alignment file without a record, its artifacts
    not yet on disk: both commands end on a division by zero.  The same with
    one record: [rnaseqbench] ends on the lookup of its subject. *)
Lemma empty_size_table_failures_witness :
  let files : gmap string file :=
    {[ "est.fasta" := SizesFile ∅; "est.blast" := BlastFile [] ]} in
  let hits := [hit "ctg1" "geneA" 1 100 1 100 100 0 0] in
  let files' : gmap string file :=
    {[ "est.fasta" := SizesFile ∅; "est.blast" := BlastFile hits ]} in
  estsummary no_options one_per_line ["est.blast"; "est.fasta"]
    {| fs := files; trace := [] |}
  = ({| fs := files;
        trace := [EvOpen "est.fasta"; EvOpen "est.blast";
                  EvStderr (LCutoff 95 90); EvStderr (LIdentity 0 0 0)] |},
     Raise ZeroDivisionError) /\
  (rnaseqbench no_options one_per_line keep_all ["est.blast"; "est.fasta"]
     {| fs := files; trace := [] |}).2 = Raise ZeroDivisionError /\
  exists vh, vh ∈ subjects hits /\
    (rnaseqbench no_options one_per_line keep_all ["est.blast"; "est.fasta"]
       {| fs := files'; trace := [] |}).2 = Raise (KeyError vh).
Proof.
  intros files hits files'.
  destruct (empty_size_table_failures no_options one_per_line one_per_line keep_all
              ["est.blast"; "est.fasta"] ["est.blast"; "est.fasta"]
              estsummary_defaults "est.blast" "est.fasta" files []
              eq_refl eq_refl)
    as (Hest & Hzero & _);
    try (vm_compute; reflexivity);
    try (intros m H; vm_compute in H; discriminate).
  destruct (empty_size_table_failures no_options one_per_line one_per_line keep_all
              ["est.blast"; "est.fasta"] ["est.blast"; "est.fasta"]
              estsummary_defaults "est.blast" "est.fasta" files' hits
              eq_refl eq_refl)
    as (_ & _ & Hkey & _);
    try (vm_compute; reflexivity);
    try (intros m H; vm_compute in H; discriminate).
  split; [exact Hest|]. split; [exact (proj1 (Hzero eq_refl eq_refl))|].
  destruct (Hkey "ctg1" (hit "ctg1" "geneA" 1 100 1 100 100 0 0) [] [])
    as (vh & Hin & Hrun & _); [vm_compute; reflexivity|].
  exists vh. split; [exact Hin | exact Hrun].
Defined.
